(** * Tsundoku: the episode acquisition pipeline

    A shallow embedding of [feeds/poller.py], [feeds/downloader.py] and
    [tsundoku/blueprints/api/__init__.py], and the properties of the
    pipeline that the design document states about them.

    Conventions.  Python [str] values are [string]s; a character is one
    byte, which is exact for ASCII text.  Python [int]s are [Z].  A [dict]
    with string keys is a [gmap string _].  Paths are POSIX paths.  Each
    loop is one control flow whose coroutines run to completion one after
    the other, so [await] is sequencing in the monad [M] below. *)

From Stdlib Require Import ZArith String Ascii List DecimalString DecimalPos
  DecimalZ Lia.
From stdpp Require Import gmap strings list fin_maps.

Open Scope Z_scope.
Open Scope string_scope.

(** ** Python text primitives *)

Module Py.

(** [str(n)] for an [int]: decimal digits, a leading minus sign when
    negative. *)
Definition str (z : Z) : string := NilZero.string_of_int (Z.to_int z).

Fixpoint zeros (n : nat) : string :=
  match n with
  | O => EmptyString
  | S k => String "0" (zeros k)
  end.

Definition is_sign (c : ascii) : bool :=
  (Ascii.eqb c "+" || Ascii.eqb c "-")%bool.

(** [s.zfill(width)]: pad with zeros on the left up to [width]; a leading
    sign stays in front of the padding. *)
Definition zfill (width : nat) (s : string) : string :=
  let n := String.length s in
  if (width <=? n)%nat then s
  else match s with
       | String c r =>
           if is_sign c then String c (zeros (width - n) +:+ r)
           else zeros (width - n) +:+ s
       | EmptyString => zeros (width - n)
       end.

(** The class [\w] of [re] on ASCII text: letters, digits, underscore. *)
Definition is_word (c : ascii) : bool :=
  let n := nat_of_ascii c in
  ((48 <=? n) && (n <=? 57) || (65 <=? n) && (n <=? 90)
   || (97 <=? n) && (n <=? 122) || (n =? 95))%nat%bool.

(** The longest run of word characters at the head of a string. *)
Fixpoint word_prefix (s : string) : string :=
  match s with
  | String c r => if is_word c then String c (word_prefix r) else EmptyString
  | EmptyString => EmptyString
  end.

Fixpoint drop (n : nat) (s : string) : string :=
  match n, s with
  | S k, String _ r => drop k r
  | _, _ => s
  end.

(** A match of the pattern [{(\w+)}] anchored at the head of [s]; the
    result is group 1.  [\w+] is greedy and neither brace is a word
    character, so the only candidate is the whole run after the brace. *)
Definition match_placeholder (s : string) : option string :=
  match s with
  | String c r =>
      if Ascii.eqb c "{" then
        let w := word_prefix r in
        match w, drop (String.length w) r with
        | String _ _, String d _ => if Ascii.eqb d "}" then Some w else None
        | _, _ => None
        end
      else None
  | EmptyString => None
  end.

(** [re.sub(r"{(\w+)}", repl, s)] with a function [repl] applied to group 1:
    the leftmost matches, none overlapping; text between matches is copied.
    [skip] counts the characters of the current match still to be consumed. *)
Fixpoint sub_from (repl : string -> string) (skip : nat) (s : string) : string :=
  match s with
  | EmptyString => EmptyString
  | String c r =>
      match skip with
      | S k => sub_from repl k r
      | O =>
          match match_placeholder s with
          | Some w => repl w +:+ sub_from repl (S (String.length w)) r
          | None => String c (sub_from repl O r)
          end
      end
  end.

Definition re_sub (repl : string -> string) (s : string) : string :=
  sub_from repl O s.



End Py.

(** ** pathlib: pure POSIX paths

    A path is its tuple of [parts]: the root first when the path is
    absolute, then the components.  Construction drops empty components and
    single dots, as [PurePosixPath] does. *)

Module Path.

Definition t : Type := list string.

Fixpoint split_slash (s : string) : list string :=
  match s with
  | EmptyString => [EmptyString]
  | String c r =>
      if Ascii.eqb c "/" then EmptyString :: split_slash r
      else match split_slash r with
           | h :: tl => String c h :: tl
           | [] => [String c EmptyString]
           end
  end.

(** One or at least three leading slashes make the root [/]; exactly two
    are kept as they are. *)
Definition root (s : string) : list string :=
  match s with
  | String "/" (String "/" (String "/" _)) => ["/"]
  | String "/" (String "/" _) => ["//"]
  | String "/" _ => ["/"]
  | _ => []
  end.

Definition is_component (c : string) : bool :=
  negb (String.eqb c "" || String.eqb c ".").

(** [Path(s)] *)
Definition of_string (s : string) : t :=
  (root s ++ List.filter is_component (split_slash s))%list.

(** [p / s]: an absolute right operand replaces the left one. *)
Definition join (p : t) (s : string) : t :=
  match root s with
  | [] => (p ++ of_string s)%list
  | _ => of_string s
  end.

(** [p.name]: the last component, empty for a bare root. *)
Definition name (p : t) : string :=
  match List.last p "" with
  | String "/" _ => ""
  | n => n
  end.

(** [n.rfind(".")] *)
Fixpoint rfind_dot (s : string) : option nat :=
  match s with
  | EmptyString => None
  | String c r =>
      match rfind_dot r with
      | Some i => Some (S i)
      | None => if Ascii.eqb c "." then Some O else None
      end
  end.

(** [p.suffix]: from the last dot of the name on, unless that dot opens or
    closes the name. *)
Definition suffix (p : t) : string :=
  let n := name p in
  match rfind_dot n with
  | Some i =>
      if ((0 <? i) && (i <? String.length n - 1))%nat then Py.drop i n else ""
  | None => ""
  end.

Fixpoint has_slash (s : string) : bool :=
  match s with
  | EmptyString => false
  | String c r => (Ascii.eqb c "/" || has_slash r)%bool
  end.

(** The names [with_name] accepts: not empty, not a single dot, free of
    separators (the rule of pathlib since 3.12; every name it accepts is
    accepted by older versions too, see [valid_name_legacy]). *)
Definition valid_name (n : string) : bool :=
  negb (String.eqb n "" || String.eqb n "." || has_slash n).

Fixpoint ends_with_slash (s : string) : bool :=
  match s with
  | EmptyString => false
  | String c r =>
      match r with
      | EmptyString => Ascii.eqb c "/"
      | String _ _ => ends_with_slash r
      end
  end.

(** The names [with_name] accepts before pathlib 3.12: not empty, not
    ending in a separator, without root, and one part once parsed.  A name
    such as [./a] passes this rule and not the later one. *)
Definition valid_name_legacy (n : string) : bool :=
  negb (String.eqb n "" || ends_with_slash n
        || negb (length (root n) =? 0)%nat
        || negb (length (of_string n) =? 1)%nat).

(** [p.with_name(n)]; [None] stands for [ValueError]. *)
Definition with_name (p : t) (n : string) : option t :=
  if String.eqb (name p) "" then None
  else if valid_name n then Some (removelast p ++ [n])%list
  else None.

End Path.

(** ** json.dumps on the rows the administrative surface returns *)

Module Json.

Inductive value :=
| Null
| Int (z : Z)
| Str (s : string).

Definition quote : ascii := ascii_of_nat 34.
Definition backslash : ascii := ascii_of_nat 92.

Definition hex_digit (n : nat) : ascii :=
  if (n <? 10)%nat then ascii_of_nat (48 + n) else ascii_of_nat (87 + n).

(** One character of a string literal, with [ensure_ascii] on: printable
    ASCII stands for itself apart from the quote and the backslash. *)
Definition escape_char (c : ascii) : string :=
  let n := nat_of_ascii c in
  if Ascii.eqb c quote then String backslash (String quote "")
  else if Ascii.eqb c backslash then String backslash (String backslash "")
  else if (n =? 10)%nat then String backslash "n"
  else if (n =? 13)%nat then String backslash "r"
  else if (n =? 9)%nat then String backslash "t"
  else if (n =? 8)%nat then String backslash "b"
  else if (n =? 12)%nat then String backslash "f"
  else if ((32 <=? n) && (n <=? 126))%nat then String c ""
  else String backslash
         ("u00" +:+ String (hex_digit (n / 16)) (String (hex_digit (n mod 16)) "")).

Fixpoint escape (s : string) : string :=
  match s with
  | EmptyString => EmptyString
  | String c r => escape_char c +:+ escape r
  end.

Definition dumps_str (s : string) : string :=
  String quote (escape s +:+ String quote "").

Definition dumps_value (v : value) : string :=
  match v with
  | Null => "null"
  | Int z => Py.str z
  | Str s => dumps_str s
  end.

Definition dumps_item (kv : string * value) : string :=
  dumps_str kv.1 +:+ ": " +:+ dumps_value kv.2.

Fixpoint join_items (l : list (string * value)) : string :=
  match l with
  | [] => ""
  | [kv] => dumps_item kv
  | kv :: tl => dumps_item kv +:+ ", " +:+ join_items tl
  end.

(** [json.dumps(d)] for a [dict] in insertion order. *)
Definition dumps (d : list (string * value)) : string :=
  "{" +:+ join_items d +:+ "}".

End Json.

(** ** Data model *)

(** A row of the [shows] table. *)
Record Show := {
  s_id : Z;
  search_title : string;
  desired_format : option string;
  desired_folder : option string;
  season : Z;
  episode_offset : Z }.

(** A row of the [show_entry] table. *)
Record ShowEntry := {
  e_id : Z;
  show_id : Z;
  episode : Z;
  torrent_hash : string;
  current_state : string }.

(** What the torrent client reports about a torrent it knows. *)
Record TorrentInfo := {
  info_save_path : string;
  info_name : string }.

(** A feed item is the [dict] feedparser hands out. *)
Abbreviation Item := (gmap string string).

(** A parser descriptor: [url] and the two extraction methods are
    mandatory, the other hooks are attributes that may be absent. *)
Record Parser := {
  url : string;
  ignore_logic : option (Item -> bool);
  get_file_name : option (Item -> string);
  get_show_name : string -> string;
  get_episode_number : string -> Z;
  get_link_location : option (Item -> string) }.

Inductive node :=
| File (content : string)
| Dir.

Inductive exn :=
| EntryNotInDeluge (msg : string)
| SavePathDoesNotExist (msg : string)
| IndexError
| KeyError (key : string)
| TypeError
| AttributeError
| ValueError
| FileNotFoundError
| IsADirectoryError
| OSError
| FetchError (msg : string).

Inductive result (A : Type) :=
| Ok (a : A)
| Raise (e : exn).

Arguments Ok {A} a.
Arguments Raise {A} e.

(** Everything the two loops and the administrative surface read or write:
    the two tables, the torrent client's session, the file system, the
    application's parsers, the poller's [current_parser] field, standard
    output, and the pairs handed to the similarity scorer so far. *)
Record World := {
  shows : list Show;
  entries : list ShowEntry;
  torrents : gmap string TorrentInfo;
  fs : gmap (list string) node;
  rss_parsers : list Parser;
  current_parser : option Parser;
  stdout : list string;
  scored : list (string * string) }.

(** The capabilities the program calls but does not define. *)
Class Externals := {
  (** fuzzywuzzy's default scorer on a query and a choice *)
  score : string -> string -> Z;
  (** [feedparser.parse(url)["items"]], or the fault of the fetch *)
  feedparser_parse : string -> result (list Item);
  (** the hash the torrent client gives a magnet link, and what it reports
      about the torrent once added *)
  info_hash : string -> string;
  added_info : string -> TorrentInfo;
  (** [deluge.get_magnet(location)] *)
  get_magnet : string -> string }.

(** ** A state and exception monad: the state survives a raise *)

Definition M (A : Type) : Type := World -> World * result A.

Definition ret {A} (a : A) : M A := fun w => (w, Ok a).

Definition raise {A} (e : exn) : M A := fun w => (w, Raise e).

Definition bind {A B} (m : M A) (k : A -> M B) : M B :=
  fun w =>
    match m w with
    | (w', Ok a) => k a w'
    | (w', Raise e) => (w', Raise e)
    end.

Declare Scope py_scope.
Delimit Scope py_scope with py.
Notation "x <- c ;; k" := (bind c (fun x => k))
  (at level 20, c at level 99, k at level 200) : py_scope.
Notation "c ;; k" := (bind c (fun _ => k))
  (at level 100, k at level 200, right associativity) : py_scope.
Open Scope py_scope.

Definition gets {A} (f : World -> A) : M A := fun w => (w, Ok (f w)).

Definition modify (f : World -> World) : M unit := fun w => (f w, Ok tt).

(** [try: m  except <handled>: h] where [handler] picks the handled
    exceptions. *)
Definition try_except {A} (m : M A) (handler : exn -> option (M A)) : M A :=
  fun w =>
    match m w with
    | (w', Ok a) => (w', Ok a)
    | (w', Raise e) =>
        match handler e with
        | Some h => h w'
        | None => (w', Raise e)
        end
    end.

(** [for x in l: await f(x)] *)
Fixpoint for_each {A} (f : A -> M unit) (l : list A) : M unit :=
  match l with
  | [] => ret tt
  | x :: tl => f x ;; for_each f tl
  end.

(** [d[key]] on a [dict] *)
Definition getitem (d : Item) (key : string) : M string :=
  match d !! key with
  | Some v => ret v
  | None => raise (KeyError key)
  end.

Definition set_fs (f : gmap (list string) node) (w : World) : World :=
  {| shows := shows w; entries := entries w; torrents := torrents w; fs := f;
     rss_parsers := rss_parsers w; current_parser := current_parser w;
     stdout := stdout w; scored := scored w |}.

Definition set_entries (l : list ShowEntry) (w : World) : World :=
  {| shows := shows w; entries := l; torrents := torrents w; fs := fs w;
     rss_parsers := rss_parsers w; current_parser := current_parser w;
     stdout := stdout w; scored := scored w |}.

Definition set_torrents (t : gmap string TorrentInfo) (w : World) : World :=
  {| shows := shows w; entries := entries w; torrents := t; fs := fs w;
     rss_parsers := rss_parsers w; current_parser := current_parser w;
     stdout := stdout w; scored := scored w |}.

Definition set_current_parser (p : option Parser) (w : World) : World :=
  {| shows := shows w; entries := entries w; torrents := torrents w; fs := fs w;
     rss_parsers := rss_parsers w; current_parser := p;
     stdout := stdout w; scored := scored w |}.

Definition set_stdout (o : list string) (w : World) : World :=
  {| shows := shows w; entries := entries w; torrents := torrents w; fs := fs w;
     rss_parsers := rss_parsers w; current_parser := current_parser w;
     stdout := o; scored := scored w |}.

Definition set_scored (l : list (string * string)) (w : World) : World :=
  {| shows := shows w; entries := entries w; torrents := torrents w; fs := fs w;
     rss_parsers := rss_parsers w; current_parser := current_parser w;
     stdout := stdout w; scored := l |}.

(** [print(a, b)]: one line on standard output. *)
Definition print (line : string) : M unit :=
  modify (fun w => set_stdout (stdout w ++ [line])%list w).

(** ** The file system *)

Definition is_dir (p : Path.t) : M bool :=
  gets (fun w => match fs w !! p with Some Dir => true | _ => false end).

Definition is_file (p : Path.t) : M bool :=
  gets (fun w => match fs w !! p with Some (File _) => true | _ => false end).

(** [os.rename(src, dst)] for a regular file: an existing file at [dst] is
    replaced, a directory there is refused.  The program renames only what
    [is_file] accepted; a directory as source is reported as [OSError]. *)
Definition os_rename (src dst : Path.t) : M unit :=
  fun w =>
    match fs w !! src with
    | None => (w, Raise FileNotFoundError)
    | Some Dir => (w, Raise OSError)
    | Some (File c) =>
        match fs w !! dst with
        | Some Dir => (w, Raise IsADirectoryError)
        | _ => (set_fs (<[dst := File c]> (delete src (fs w))) w, Ok tt)
        end
    end.

Definition path_with_name (p : Path.t) (n : string) : M Path.t :=
  match Path.with_name p n with
  | Some q => ret q
  | None => raise ValueError
  end.

(** ** The data store *)

(** [SELECT ... FROM shows WHERE id=$1] with [fetchrow]: the first row, or
    [None]. *)
Definition fetch_show (i : Z) : M (option Show) :=
  gets (fun w => List.find (fun s => (s_id s =? i)%Z) (shows w)).

(** [SELECT search_title FROM shows] *)
Definition fetch_search_titles : M (list string) :=
  gets (fun w => map search_title (shows w)).

(** [SELECT ... FROM show_entry WHERE current_state = 'downloading'] *)
Definition fetch_downloading : M (list ShowEntry) :=
  gets (fun w =>
    List.filter (fun e => String.eqb (current_state e) "downloading") (entries w)).

(** [SELECT ... FROM show_entry WHERE show_id=$1 AND id=$2] with [fetchrow] *)
Definition fetch_entry (sid eid : Z) : M (option ShowEntry) :=
  gets (fun w =>
    List.find (fun e => (show_id e =? sid)%Z && (e_id e =? eid)%Z) (entries w)).

Definition next_id (l : list ShowEntry) : Z :=
  1 + fold_right Z.max 0 (map e_id l).

(** Modelled from the spec: the schema of [show_entry] is not among the
    sources.  A new row gets a fresh [id], and its [current_state] is the
    initial state [downloading].  The reference from [show_id] to [shows]
    is not checked here: what is stated about an inserted row is stated
    for a show of the table. *)
Definition insert_entry (sid ep : Z) (h : string) : M unit :=
  modify (fun w =>
    set_entries
      (entries w ++
       [{| e_id := next_id (entries w); show_id := sid; episode := ep;
           torrent_hash := h; current_state := "downloading" |}])%list w).

Section Pipeline.

Context {X : Externals}.

(** ** The torrent client *)

(** Modelled from the spec: the Deluge client is not among the sources.
    [add_torrent] registers the torrent and returns its handle;
    [get_torrent] reports save path and display name, and raises the
    [IndexError] the watcher catches when the handle is unknown. *)
Definition deluge_add_torrent (magnet_url : string) : M string :=
  modify (fun w =>
    set_torrents (<[info_hash magnet_url := added_info magnet_url]> (torrents w)) w) ;;
  ret (info_hash magnet_url).

(** Modelled from the spec: the status query of the Deluge client. *)
Definition deluge_get_torrent (h : string) : M TorrentInfo :=
  t <- gets (fun w => torrents w !! h) ;;
  match t with
  | Some info => ret info
  | None => raise IndexError
  end.

(** Modelled from the spec: the Deluge client's conversion of a torrent
    location into a magnet link. *)
Definition deluge_get_magnet (location : string) : M string :=
  ret (get_magnet location).

(** ** fuzzywuzzy *)

(** [max(seq, key=lambda i: i[1])]: the first of the largest. *)
Fixpoint max_by_score (best : string * Z) (l : list (string * Z)) : string * Z :=
  match l with
  | [] => best
  | c :: tl => max_by_score (if (best.2 <? c.2)%Z then c else best) tl
  end.

(** [process.extractOne(query, choices)]: every choice is scored once, the
    best pair is returned, [None] when there is no choice.  Scores lie
    between 0 and 100, so the default cutoff 0 removes no choice. *)
Definition extractOne (query : string) (choices : list string)
  : M (option (string * Z)) :=
  modify (fun w =>
    set_scored (scored w ++ map (fun c => (query, c)) choices)%list w) ;;
  ret match map (fun c => (c, score query c)) choices with
      | [] => None
      | c :: tl => Some (max_by_score c tl)
      end.

(** ** feeds/downloader.py *)

Definition begin_handling (show_id episode : Z) (magnet_url : string) : M unit :=
  torrent_hash <- deluge_add_torrent magnet_url ;;
  insert_entry show_id episode torrent_hash.

(** The [dict] built by [formatting_re]. *)
Definition format_exprs (show_info : Show) (entry : ShowEntry) : gmap string string :=
  let season := Py.str (season show_info) in
  let episode := Py.str (episode entry + episode_offset show_info) in
  list_to_map
    [("n", search_title show_info);
     ("s", season);
     ("e", episode);
     ("s00", Py.zfill 2 season);
     ("e00", Py.zfill 2 episode);
     ("s00e00", "S" +:+ Py.zfill 2 season +:+ "E" +:+ Py.zfill 2 episode);
     ("sxe", season +:+ "x" +:+ Py.zfill 2 episode)].

(** [formatting_re], applied to group 1 of a match:
    [format_exprs.get(expression, expression)]. *)
Definition formatting_re (show_info : Show) (entry : ShowEntry)
    (expression : string) : string :=
  default expression (format_exprs show_info entry !! expression).

(** The template in use: [desired_format] when it is truthy. *)
Definition file_fmt (show_info : Show) : string :=
  match desired_format show_info with
  | Some (String c r) => String c r
  | _ => "{n} - {s00e00}"
  end.

Definition handle_rename (entry : ShowEntry) (path : Path.t) : M Path.t :=
  let suffix := Path.suffix path in
  show_info <- fetch_show (show_id entry) ;;
  match show_info with
  | None => raise TypeError
  | Some show_info =>
      let name := Py.re_sub (formatting_re show_info entry) (file_fmt show_info) in
      new_path <- path_with_name path (name +:+ suffix) ;;
      os_rename path new_path ;;
      ret new_path
  end.

Fixpoint replace_backslash (s : string) : string :=
  match s with
  | EmptyString => EmptyString
  | String c r =>
      String (if Ascii.eqb c Json.backslash then "/"%char else c) (replace_backslash r)
  end.

(** The argument [file_location] is overwritten on the first line of the
    body. *)
Definition get_file_path (file_location file_name : string) : M Path.t :=
  let file_location := "C:\Users\Tyler\Documents\GitHub\Tsundoku\test\" in
  let file_location := replace_backslash file_location in
  let location := Path.of_string file_location in
  d <- is_dir location ;;
  if negb d then
    raise (SavePathDoesNotExist ("'" +:+ file_location +:+ "' could not be read"))
  else ret (Path.join location file_name).

Definition missing_from_deluge (entry : ShowEntry) : string :=
  "Show Entry with ID " +:+ Py.str (show_id entry) +:+ " Episode "
  +:+ Py.str (episode entry) +:+ " missing from Deluge.".

Definition check_show_entry (entry : ShowEntry) : M unit :=
  deluge_info <-
    try_except (deluge_get_torrent (torrent_hash entry))
      (fun e => match e with
                | IndexError => Some (raise (EntryNotInDeluge (missing_from_deluge entry)))
                | _ => None
                end) ;;
  let file_location := info_save_path deluge_info in
  let file_name := info_name deluge_info in
  path <- get_file_path file_location file_name ;;
  f <- is_file path ;;
  if negb f then ret tt
  else
    new_path <- handle_rename entry path ;;
    ret tt.

Definition check_show_entries : M unit :=
  entries <- fetch_downloading ;;
  for_each check_show_entry entries.

(** [Downloader.start]: the first [cycles] turns of the loop; the sleep
    between two turns does not touch the state. *)
Fixpoint downloader_start (cycles : nat) : M unit :=
  match cycles with
  | O => ret tt
  | S n => check_show_entries ;; downloader_start n
  end.

(** ** feeds/poller.py *)

Definition check_item_for_match (show_name : string) (episode : Z)
  : M (option string) :=
  show_list <- fetch_search_titles ;;
  match show_list with
  | [] => ret None
  | _ =>
      m <- extractOne show_name show_list ;;
      match m with
      | None => raise TypeError
      | Some m => if (90 <=? m.2)%Z then ret (Some m.1) else ret None
      end
  end.

(** [self.current_parser.<attr>]; no attribute on [None]. *)
Definition the_parser : M Parser :=
  cp <- gets current_parser ;;
  match cp with
  | Some p => ret p
  | None => raise AttributeError
  end.

(** [hasattr(self.current_parser, <hook>)], with the hook when it holds. *)
Definition hook {A} (h : Parser -> option A) : M (option A) :=
  gets (fun w => current_parser w ≫= h).

Definition get_torrent_link (item : Item) : M string :=
  p <- the_parser ;;
  match get_link_location p with
  | Some f => deluge_get_magnet (f item)
  | None => raise AttributeError
  end.

Definition check_item (item : Item) : M unit :=
  ignore <- hook ignore_logic ;;
  if match ignore with Some f => negb (f item) | None => false end then ret tt
  else
    file_name <- hook get_file_name ;;
    torrent_name <-
      match file_name with
      | Some f => ret (f item)
      | None => getitem item "title"
      end ;;
    p <- the_parser ;;
    let show_name := get_show_name p torrent_name in
    let show_episode := get_episode_number p torrent_name in
    m <- check_item_for_match show_name show_episode ;;
    match m with
    | None => ret tt
    | Some _ =>
        link_location <- hook get_link_location ;;
        torrent_url <-
          match link_location with
          | Some _ => get_torrent_link item
          | None => getitem item "link"
          end ;;
        print (show_name +:+ " " +:+ Py.str show_episode)
    end.

Definition check_feed (feed : list Item) : M unit :=
  for_each check_item feed.

Definition get_feed_from_parser : M (list Item) :=
  p <- the_parser ;;
  fun w => (w, feedparser_parse (url p)).

(** The body of [for parser in self.app.rss_parsers]. *)
Definition poll_parser (parser : Parser) : M unit :=
  modify (set_current_parser (Some parser)) ;;
  feed <- get_feed_from_parser ;;
  check_feed feed.

(** One turn of the [while True] of [Poller.start], up to the sleep. *)
Definition poll_cycle : M unit :=
  parsers <- gets rss_parsers ;;
  for_each poll_parser parsers.

Fixpoint poller_start (cycles : nat) : M unit :=
  match cycles with
  | O => ret tt
  | S n => poll_cycle ;; poller_start n
  end.

(** ** tsundoku/blueprints/api *)

(** A view that returns a [str] answers with status 200. *)
Record Response := {
  status : Z;
  body : string }.

Definition opt_str (o : option string) : Json.value :=
  match o with
  | Some s => Json.Str s
  | None => Json.Null
  end.

(** [dict(record)] for the columns each query selects. *)
Definition show_dict (s : Show) : list (string * Json.value) :=
  [("id", Json.Int (s_id s));
   ("search_title", Json.Str (search_title s));
   ("desired_format", opt_str (desired_format s));
   ("desired_folder", opt_str (desired_folder s));
   ("season", Json.Int (season s));
   ("episode_offset", Json.Int (episode_offset s))].

Definition entry_dict (e : ShowEntry) : list (string * Json.value) :=
  [("id", Json.Int (e_id e));
   ("episode", Json.Int (episode e));
   ("current_state", Json.Str (current_state e));
   ("torrent_hash", Json.Str (torrent_hash e))].

Definition get_show_by_id (show_id : Z) : M Response :=
  show <- fetch_show show_id ;;
  let show := match show with Some s => show_dict s | None => [] end in
  ret {| status := 200; body := Json.dumps show |}.

Definition get_show_entry_by_entry_id (show_id entry_id : Z) : M Response :=
  entry <- fetch_entry show_id entry_id ;;
  let entry := match entry with Some e => entry_dict e | None => [] end in
  ret {| status := 200; body := Json.dumps entry |}.

End Pipeline.

(** ** int(s) on ASCII text *)

Module PyInt.

(** The characters [int] skips at both ends of ASCII text: tab, line feed,
    vertical tab, form feed, carriage return and space. *)
Definition is_space (c : ascii) : bool :=
  let n := nat_of_ascii c in
  ((9 <=? n) && (n <=? 13) || (n =? 32))%nat%bool.

(** The most digits [int] converts (the default of CPython since 3.11;
    releases without the limit convert these texts as well). *)
Definition max_str_digits : nat := 4300.

(** Text whose characters are all ASCII. *)
Fixpoint is_ascii (s : string) : bool :=
  match s with
  | EmptyString => true
  | String c r => ((nat_of_ascii c <? 128)%nat && is_ascii r)%bool
  end.

Fixpoint lstrip (s : string) : string :=
  match s with
  | String c r => if is_space c then lstrip r else s
  | EmptyString => EmptyString
  end.

Fixpoint rstrip (s : string) : string :=
  match s with
  | EmptyString => EmptyString
  | String c r =>
      match rstrip r with
      | EmptyString => if is_space c then EmptyString else String c EmptyString
      | r' => String c r'
      end
  end.

Definition strip (s : string) : string := rstrip (lstrip s).

(** Text made of blanks only. *)
Fixpoint is_blank (s : string) : bool :=
  match s with
  | EmptyString => true
  | String c r => (is_space c && is_blank r)%bool
  end.

(** Underscores may group digits: one at a time, never first or last.
    [after_digit] tells whether the previous character allows one. *)
Fixpoint ungroup (after_digit : bool) (s : string) : option string :=
  match s with
  | EmptyString => if after_digit then Some EmptyString else None
  | String c r =>
      if Ascii.eqb c "_" then
        if after_digit then ungroup false r else None
      else option_map (String c) (ungroup true r)
  end.

Definition digits_value (s : string) : option Z :=
  match ungroup false s with
  | Some digits =>
      if (max_str_digits <? String.length digits)%nat then None
      else option_map Z.of_uint (NilEmpty.uint_of_string digits)
  | None => None
  end.

(** [int(s)] in base 10 for ASCII text [s]; [None] stands for
    [ValueError]. *)
Definition int (s : string) : option Z :=
  match strip s with
  | String c r =>
      if Ascii.eqb c "-" then option_map Z.opp (digits_value r)
      else if Ascii.eqb c "+" then digits_value r
      else digits_value (String c r)
  | EmptyString => None
  end.

Definition is_digit (c : ascii) : bool :=
  ((48 <=? nat_of_ascii c) && (nat_of_ascii c <=? 57))%nat.

Fixpoint all_digits (s : string) : bool :=
  match s with
  | EmptyString => true
  | String c r => (is_digit c && all_digits r)%bool
  end.

(** The characters a numeral can be made of. *)
Definition plausible (c : ascii) : bool :=
  (is_digit c || is_space c || Ascii.eqb c "-" || Ascii.eqb c "+" || Ascii.eqb c "_")%bool.

End PyInt.

(** ** json.dumps on lists of rows and on the answers of the write view *)

Module JsonText.

Inductive answer :=
| Bool (b : bool)
| Str (s : string).

Definition dumps_answer (v : answer) : string :=
  match v with
  | Bool true => "true"
  | Bool false => "false"
  | Str s => Json.dumps_str s
  end.

(** [sep.join(l)] *)
Fixpoint join (sep : string) (l : list string) : string :=
  match l with
  | [] => ""
  | [x] => x
  | x :: tl => x +:+ sep +:+ join sep tl
  end.

(** [json.dumps(d)] for the [dict] the write view answers with. *)
Definition dumps_answers (d : list (string * answer)) : string :=
  "{" +:+ join ", " (map (fun kv => Json.dumps_str kv.1 +:+ ": " +:+ dumps_answer kv.2) d)
  +:+ "}".

(** [json.dumps(l)] for a list of rows. *)
Definition dumps_rows (l : list (list (string * Json.value))) : string :=
  "[" +:+ join ", " (map Json.dumps l) +:+ "]".

Definition hex_value (c : ascii) : nat :=
  let n := nat_of_ascii c in
  if (n <? 58)%nat then (n - 48)%nat else (n - 87)%nat.

Definition unescape_char (c : ascii) : ascii :=
  match c with
  | "n" => ascii_of_nat 10
  | "r" => ascii_of_nat 13
  | "t" => ascii_of_nat 9
  | "b" => ascii_of_nat 8
  | "f" => ascii_of_nat 12
  | _ => c
  end%char.

(** Reading back the inside of a string literal written by [Json.escape]. *)
Fixpoint unescape (s : string) : string :=
  match s with
  | EmptyString => EmptyString
  | String c r =>
      if Ascii.eqb c Json.backslash then
        match r with
        | String "u" (String _ (String _ (String h (String l r')))) =>
            String (ascii_of_nat (16 * hex_value h + hex_value l)) (unescape r')
        | String e r' => String (unescape_char e) (unescape r')
        | EmptyString => String c EmptyString
        end
      else String c (unescape r)
  end.

(** Text made of printable ASCII characters only. *)
Fixpoint printable (s : string) : bool :=
  match s with
  | EmptyString => true
  | String c r =>
      ((32 <=? nat_of_ascii c) && (nat_of_ascii c <=? 126))%nat && printable r
  end.

End JsonText.

(** ** Poller.__init__ *)

(** The constructor either gives a poller with its interval (and no
    current parser) or raises [InvalidPollerInterval]. *)
Inductive poller_init :=
| PollerWith (interval : Z)
| InvalidPollerInterval (msg : string).

(** [interval] is the text [get_config_value] hands over. *)
Definition Poller_init (interval : string) : poller_init :=
  match PyInt.int interval with
  | Some n => PollerWith n
  | None => InvalidPollerInterval ("'" +:+ interval +:+ "' is an invalid polling interval.")
  end.

(** ** The other views of tsundoku/blueprints/api *)

(** The submitted form, in order; a field may come more than once. *)
Abbreviation Form := (list (string * string)).

(** [set(arguments.keys())] *)
Definition form_keys (arguments : Form) : gset string :=
  list_to_set (map fst arguments).

(** [arguments[key]]: the first value of the field. *)
Definition form_get (arguments : Form) (key : string) : M string :=
  match List.find (fun kv => String.eqb kv.1 key) arguments with
  | Some kv => ret kv.2
  | None => raise (KeyError key)
  end.

Definition get_shows : M Response :=
  shows <- gets shows ;;
  ret {| status := 200; body := JsonText.dumps_rows (map show_dict shows) |}.

Definition get_show_entries_by_show_id (show_id' : Z) : M Response :=
  entries <- gets (fun w =>
    List.filter (fun e => (show_id e =? show_id')%Z) (entries w)) ;;
  ret {| status := 200; body := JsonText.dumps_rows (map entry_dict entries) |}.

Section WriteView.

Context {X : Externals}.

Definition post_show_entries (show_id : Z) (arguments : Form) : M Response :=
  let required_arguments : gset string := {[ "episode"; "magnet" ]} in
  if bool_decide (form_keys arguments <> required_arguments) then
    ret {| status := 400;
           body := JsonText.dumps_answers
                     [("success", JsonText.Bool false);
                      ("error", JsonText.Str "too many arguments or missing required argument")] |}
  else
    text <- form_get arguments "episode" ;;
    match PyInt.int text with
    | None =>
        ret {| status := 400;
               body := JsonText.dumps_answers
                         [("success", JsonText.Bool false);
                          ("error", JsonText.Str "episode argument must be int")] |}
    | Some episode =>
        magnet <- form_get arguments "magnet" ;;
        begin_handling show_id episode magnet ;;
        ret {| status := 200;
               body := JsonText.dumps_answers [("success", JsonText.Bool true)] |}
    end.

End WriteView.

(** ** A household set-up used to run the program on concrete inputs *)

Module Fixture.

Definition one_piece : Show :=
  {| s_id := 1; search_title := "One Piece"; desired_format := None;
     desired_folder := None; season := 1; episode_offset := 0 |}.

Definition with_format (f : string) : Show :=
  {| s_id := 1; search_title := "One Piece"; desired_format := Some f;
     desired_folder := None; season := 1; episode_offset := 0 |}.

Definition episode5 : ShowEntry :=
  {| e_id := 1; show_id := 1; episode := 5; torrent_hash := "h5";
     current_state := "downloading" |}.

Definition lost : ShowEntry :=
  {| e_id := 2; show_id := 1; episode := 6; torrent_hash := "gone";
     current_state := "downloading" |}.

Definition item5 : Item :=
  {[ "title" := "[Subs] One Piece - 05.mkv"; "link" := "magnet:?xt=op5" ]}.

(** A scorer that knows exact matches only, a fetch that raises at [A] and
    lists episode 5 at [B]. *)
Definition externals : Externals :=
  {| score q c := if String.eqb q c then 100 else 0;
     feedparser_parse u :=
       if String.eqb u "A" then Raise (FetchError "A is down") else Ok [item5];
     info_hash m := "hash of " +:+ m;
     added_info m := {| info_save_path := "/downloads"; info_name := m |};
     get_magnet l := l |}.

Definition source (u : string) : Parser :=
  {| url := u; ignore_logic := None; get_file_name := None;
     get_show_name := fun _ => "One Piece"; get_episode_number := fun _ => 5;
     get_link_location := None |}.

Definition test_dir : Path.t :=
  ["C:"; "Users"; "Tyler"; "Documents"; "GitHub"; "Tsundoku"; "test"].

Definition downloaded : Path.t := (test_dir ++ ["op5.mkv"])%list.

(** The show is wanted, nothing is tracked yet, sources [sources]. *)
Definition fresh (sources : list Parser) : World :=
  {| shows := [one_piece]; entries := []; torrents := ∅; fs := ∅;
     rss_parsers := sources; current_parser := None; stdout := [];
     scored := [] |}.

(** Episode 5 of show [s] is tracked and its file has arrived. *)
Definition arrived (s : Show) : World :=
  {| shows := [s]; entries := [episode5];
     torrents := {[ "h5" := {| info_save_path := "/downloads"; info_name := "op5.mkv" |} ]};
     fs := {[ test_dir := Dir; downloaded := File "video" ]};
     rss_parsers := []; current_parser := None; stdout := []; scored := [] |}.

(** Episode 5 of show [s] is tracked, the client reports the directory the
    watcher reads as save path, and the file has arrived there. *)
Definition arrived_in_place (s : Show) : World :=
  {| shows := [s]; entries := [episode5];
     torrents :=
       {[ "h5" := {| info_save_path := "C:/Users/Tyler/Documents/GitHub/Tsundoku/test";
                     info_name := "op5.mkv" |} ]};
     fs := {[ test_dir := Dir; downloaded := File "video" ]};
     rss_parsers := []; current_parser := None; stdout := []; scored := [] |}.



(** Two tracked entries; the client has forgotten the second. *)
Definition forgotten : World :=
  {| shows := [one_piece]; entries := [episode5; lost];
     torrents := {[ "h5" := {| info_save_path := "/downloads"; info_name := "op5.mkv" |} ]};
     fs := {[ test_dir := Dir ]};
     rss_parsers := []; current_parser := None; stdout := []; scored := [] |}.

End Fixture.

(** ** Notions the statements below use *)

(** A string of word characters, as [\w+] matches it. *)
Fixpoint all_word (s : string) : bool :=
  match s with
  | EmptyString => true
  | String c r => (Py.is_word c && all_word r)%bool
  end.

(** What follows a string does not change the matches inside it, as long
    as it opens with something that is neither a word character nor a
    closing brace. *)
Definition opens_clean (rest : string) : Prop :=
  match rest with
  | String c _ => Py.is_word c = false /\ c <> "}"%char
  | EmptyString => True
  end.

(** The directory [get_file_path] looks into, as text and as a path. *)
Definition watched_location : string :=
  "C:/Users/Tyler/Documents/GitHub/Tsundoku/test/".

Definition watched_dir : Path.t :=
  ["C:"; "Users"; "Tyler"; "Documents"; "GitHub"; "Tsundoku"; "test"].

(** The path a report of the torrent client stands for: the display name
    under the save path, read as [get_file_path] reads a location. *)
Definition reported_path (info : TorrentInfo) : Path.t :=
  Path.join (Path.of_string (replace_backslash (info_save_path info))) (info_name info).

(** An action leaves a component of the world as it found it, whatever its
    outcome. *)
Definition keeps {A B} (proj : World -> B) (m : M A) : Prop :=
  forall w, proj (m w).1 = proj w.

(** A template without an opening brace. *)
Fixpoint no_brace (s : string) : bool :=
  match s with
  | EmptyString => true
  | String c r => (negb (Ascii.eqb c "{") && no_brace r)%bool
  end.

(** What a watcher may do to the file system: the directories stay, and
    every file holds what some file held before. *)
Definition fs_conserved (w w' : World) : Prop :=
  (forall p, fs w' !! p = Some Dir <-> fs w !! p = Some Dir)
  /\ (forall p c, fs w' !! p = Some (File c) -> exists q, fs w !! q = Some (File c)).

(** An action moves the world along a relation, whatever its outcome. *)
Definition moves_along {A} (R : World -> World -> Prop) (m : M A) : Prop :=
  forall w, R w (m w).1.

(** An action does not see a change [u] of the world and does not undo it:
    run after [u], it does what it does without [u], and [u] is still
    applied to the world it leaves. *)
Definition frames {A} (u : World -> World) (m : M A) : Prop :=
  forall w, m (u w) = (u (m w).1, (m w).2).

(** The marks a poller leaves: its current parser, the scored pairs and
    standard output. *)
Definition poller_marks (p : option Parser) (s : list (string * string))
    (o : list string) (w : World) : World :=
  set_stdout o (set_scored s (set_current_parser p w)).

(** * Properties *)

(** ** Strings *)

#[local] Arguments String.append !_ _ / : simpl nomatch.

Lemma append_assoc (a b c : string) : (a +:+ b) +:+ c = a +:+ (b +:+ c).
Proof. induction a as [|x a IH]; [reflexivity | simpl; f_equal; exact IH]. Qed.

Lemma append_empty_r (a : string) : a +:+ "" = a.
Proof. induction a as [|x a IH]; [reflexivity | simpl; f_equal; exact IH]. Qed.

Lemma length_append (a b : string) :
  String.length (a +:+ b) = (String.length a + String.length b)%nat.
Proof. induction a as [|x a IH]; [reflexivity | simpl; f_equal; exact IH]. Qed.

Lemma word_prefix_append w rest :
  all_word w = true ->
  match rest with String c _ => Py.is_word c = false | EmptyString => True end ->
  Py.word_prefix (w +:+ rest) = w.
Proof.
  intros Hw Hrest. induction w as [|x w IH]; simpl in *.
  - destruct rest as [|c r]; simpl; [reflexivity | now rewrite Hrest].
  - apply andb_prop in Hw as [Hx Hw]. rewrite Hx. f_equal. now apply IH.
Qed.

Lemma drop_append (a b : string) : Py.drop (String.length a) (a +:+ b) = b.
Proof. induction a as [|x a IH]; simpl; [now destruct b | exact IH]. Qed.

Lemma word_prefix_split (s : string) :
  s = Py.word_prefix s +:+ Py.drop (String.length (Py.word_prefix s)) s.
Proof.
  induction s as [|c r IH]; simpl; [reflexivity |].
  destruct (Py.is_word c); simpl; [now rewrite <- IH | reflexivity].
Qed.

(** A match covers the brace, the word and the closing brace. *)
Lemma match_placeholder_shape c r w :
  Py.match_placeholder (String c r) = Some w ->
  c = "{"%char /\ w <> "" /\ exists rest, r = w +:+ String "}" rest.
Proof.
  unfold Py.match_placeholder.
  destruct (Ascii.eqb_spec c "{"); [|discriminate].
  pose proof (word_prefix_split r) as Hsplit.
  destruct (Py.word_prefix r) as [|x p] eqn:Hp; [discriminate|].
  destruct (Py.drop (String.length (String x p)) r) as [|d rest] eqn:Hd;
    [discriminate|].
  destruct (Ascii.eqb_spec d "}"); [|discriminate].
  intros [= <-]. subst c d. split; [reflexivity|]. split; [discriminate|].
  now exists rest.
Qed.

Lemma match_placeholder_length c r w :
  Py.match_placeholder (String c r) = Some w ->
  (S (String.length w) <= String.length r)%nat.
Proof.
  intros H. apply match_placeholder_shape in H as (_ & _ & rest & ->).
  rewrite length_append. simpl. lia.
Qed.

Lemma word_prefix_clean s rest :
  opens_clean rest ->
  Py.word_prefix (s +:+ rest) = Py.word_prefix s
  /\ (Py.drop (String.length (Py.word_prefix s)) s = ""
      -> match Py.drop (String.length (Py.word_prefix s)) (s +:+ rest) with
         | String d _ => d <> "}"%char
         | EmptyString => True
         end)
  /\ (forall d t, Py.drop (String.length (Py.word_prefix s)) s = String d t ->
      Py.drop (String.length (Py.word_prefix s)) (s +:+ rest) = String d (t +:+ rest)).
Proof.
  intros Hrest. induction s as [|c r IH]; simpl.
  - destruct rest as [|x rest]; simpl; [easy|].
    destruct Hrest as [-> Hx]. simpl. repeat split; [easy | discriminate].
  - destruct IH as (IH1 & IH2 & IH3).
    destruct (Py.is_word c) eqn:Hc; simpl.
    + rewrite IH1. repeat split; assumption.
    + repeat split; [discriminate | now intros d t [= <- <-]].
Qed.

Lemma match_placeholder_clean s rest :
  opens_clean rest ->
  Py.match_placeholder (s +:+ rest) = Py.match_placeholder s
  \/ s = "".
Proof.
  intros Hrest. destruct s as [|c r]; [now right | left].
  destruct (word_prefix_clean r rest Hrest) as (H1 & H2 & H3).
  change (String c r +:+ rest) with (String c (r +:+ rest)).
  unfold Py.match_placeholder. destruct (Ascii.eqb c "{"); [|reflexivity].
  cbv zeta. rewrite H1.
  destruct (Py.word_prefix r) as [|x p]; [reflexivity|].
  destruct (Py.drop (String.length (String x p)) r) as [|d t].
  - specialize (H2 eq_refl).
    destruct (Py.drop (String.length (String x p)) (r +:+ rest)) as [|d' t'];
      [reflexivity|].
    now destruct (Ascii.eqb_spec d' "}").
  - now rewrite (H3 d t eq_refl).
Qed.

Lemma sub_from_append repl (pre rest : string) :
  opens_clean rest -> rest <> "" ->
  forall k, (k <= String.length pre)%nat ->
  Py.sub_from repl k (pre +:+ rest)
  = Py.sub_from repl k pre +:+ Py.sub_from repl O rest.
Proof.
  intros Hrest Hne. induction pre as [|c p IH]; intros k Hk; simpl in Hk.
  - now replace k with O by lia.
  - destruct k as [|k].
    + change (String c p +:+ rest) with (String c (p +:+ rest)).
      cbn [Py.sub_from].
      change (String c (p +:+ rest)) with (String c p +:+ rest).
      destruct (match_placeholder_clean (String c p) rest Hrest) as [->|]; [|discriminate].
      destruct (Py.match_placeholder (String c p)) as [w|] eqn:Hm.
      * apply match_placeholder_length in Hm.
        rewrite IH by lia. now rewrite append_assoc.
      * simpl. now rewrite IH by lia.
    + simpl. apply IH. lia.
Qed.

Lemma sub_from_skip repl (a b : string) :
  Py.sub_from repl (String.length a) (a +:+ b) = Py.sub_from repl O b.
Proof. induction a as [|x a IH]; simpl; [now destruct b | exact IH]. Qed.


(** [re.sub] at a placeholder: the replacement, then the rest. *)
Lemma re_sub_placeholder repl w post :
  all_word w = true -> w <> "" ->
  Py.re_sub repl (String "{" (w +:+ String "}" post))
  = repl w +:+ Py.re_sub repl post.
Proof.
  intros Hw Hne. unfold Py.re_sub. cbn [Py.sub_from].
  assert (Hm : Py.match_placeholder (String "{" (w +:+ String "}" post)) = Some w).
  { destruct w as [|x p]; [congruence|].
    unfold Py.match_placeholder. change (Ascii.eqb "{" "{") with true.
    cbv iota zeta.
    rewrite (word_prefix_append (String x p)) by (try assumption; reflexivity).
    cbv iota. now rewrite (drop_append (String x p)). }
  rewrite Hm. f_equal.
  replace (S (String.length w)) with (String.length (w +:+ "}")).
  - replace (w +:+ String "}" post) with ((w +:+ "}") +:+ post).
    + apply sub_from_skip.
    + now rewrite append_assoc.
  - rewrite length_append. simpl. lia.
Qed.


(** ** The monad *)

Section Frame.

Context {B : Type} (proj : World -> B).

Lemma keeps_ret {A} (a : A) : keeps proj (ret a).
Proof. now intros w. Qed.

Lemma keeps_raise {A} (e : exn) : keeps proj (@raise A e).
Proof. now intros w. Qed.

Lemma keeps_gets {A} (f : World -> A) : keeps proj (gets f).
Proof. now intros w. Qed.

Lemma keeps_modify (f : World -> World) :
  (forall w, proj (f w) = proj w) -> keeps proj (modify f).
Proof. intros H w. apply H. Qed.

Lemma keeps_bind {A C} (m : M A) (k : A -> M C) :
  keeps proj m -> (forall a, keeps proj (k a)) -> keeps proj (bind m k).
Proof.
  intros Hm Hk w. unfold bind. specialize (Hm w).
  destruct (m w) as [w' [a|e]]; simpl in *; [|exact Hm].
  now rewrite Hk.
Qed.

Lemma keeps_try_except {A} (m : M A) handler :
  keeps proj m -> (forall e h, handler e = Some h -> keeps proj h) ->
  keeps proj (try_except m handler).
Proof.
  intros Hm Hh w. unfold try_except. specialize (Hm w).
  destruct (m w) as [w' [a|e]]; simpl in *; [exact Hm|].
  destruct (handler e) as [h|] eqn:He; simpl; [|exact Hm].
  now rewrite (Hh e h He).
Qed.

Lemma keeps_for_each {A} (f : A -> M unit) (l : list A) :
  (forall x, keeps proj (f x)) -> keeps proj (for_each f l).
Proof.
  intros Hf. induction l as [|x l IH]; simpl.
  - apply keeps_ret.
  - apply keeps_bind; [apply Hf | intros _; exact IH].
Qed.

End Frame.

Ltac keeps_step :=
  lazymatch goal with
  | |- keeps _ (bind _ _) => apply keeps_bind; [|intros ?]
  | |- keeps _ (ret _) => apply keeps_ret
  | |- keeps _ (raise _) => apply keeps_raise
  | |- keeps _ (gets _) => apply keeps_gets
  | |- keeps _ (modify _) => apply keeps_modify; intros ?; reflexivity
  | |- keeps _ (for_each _ _) => apply keeps_for_each; intros ?
  | |- keeps _ (match ?x with _ => _ end) => destruct x
  end.

Ltac keeps_auto := repeat keeps_step.

Lemma for_each_app {A} (f : A -> M unit) (l1 l2 : list A) (w : World) :
  for_each f (l1 ++ l2) w = (for_each f l1 ;; for_each f l2) w.
Proof.
  revert w. induction l1 as [|x l1 IH]; intros w; simpl; [reflexivity|].
  unfold bind in *. destruct (f x w) as [w1 [[]|e]]; [|reflexivity].
  apply IH.
Qed.

Section Properties.

Context {X : Externals}.

(** ** What the loops leave alone *)

Lemma get_file_path_unfold (file_location file_name : string) :
  get_file_path file_location file_name
  = (d <- is_dir watched_dir ;;
     if negb d then
       raise (SavePathDoesNotExist ("'" +:+ watched_location +:+ "' could not be read"))
     else ret (Path.join watched_dir file_name)).
Proof. reflexivity. Qed.

Lemma os_rename_keeps {B} (proj : World -> B) src dst :
  (forall f w, proj (set_fs f w) = proj w) -> keeps proj (os_rename src dst).
Proof.
  intros H w. unfold os_rename.
  destruct (fs w !! src) as [[c|]|]; try reflexivity.
  destruct (fs w !! dst) as [[c'|]|]; simpl; auto.
Qed.

Lemma handle_rename_keeps {B} (proj : World -> B) entry path :
  (forall f w, proj (set_fs f w) = proj w) -> keeps proj (handle_rename entry path).
Proof.
  intros H. unfold handle_rename, fetch_show, path_with_name.
  keeps_auto. apply os_rename_keeps, H.
Qed.

Lemma get_file_path_keeps {B} (proj : World -> B) file_location file_name :
  keeps proj (get_file_path file_location file_name).
Proof. rewrite get_file_path_unfold. unfold is_dir. keeps_auto. Qed.

Lemma check_show_entry_keeps {B} (proj : World -> B) entry :
  (forall f w, proj (set_fs f w) = proj w) -> keeps proj (check_show_entry entry).
Proof.
  intros H. unfold check_show_entry, is_file, deluge_get_torrent.
  apply keeps_bind.
  - apply keeps_try_except; [keeps_auto|].
    intros e h He. destruct e; inversion He; subst. apply keeps_raise.
  - intros info. apply keeps_bind; [apply get_file_path_keeps | intros path].
    keeps_auto. apply handle_rename_keeps, H.
Qed.

Lemma check_show_entries_keeps {B} (proj : World -> B) :
  (forall f w, proj (set_fs f w) = proj w) -> keeps proj check_show_entries.
Proof.
  intros H. unfold check_show_entries, fetch_downloading. keeps_auto.
  apply check_show_entry_keeps, H.
Qed.

Lemma downloader_start_keeps {B} (proj : World -> B) cycles :
  (forall f w, proj (set_fs f w) = proj w) -> keeps proj (downloader_start cycles).
Proof.
  intros H. induction cycles as [|n IH]; simpl; keeps_auto; [|exact IH].
  apply check_show_entries_keeps, H.
Qed.

Lemma check_item_for_match_keeps {B} (proj : World -> B) show_name episode :
  (forall l w, proj (set_scored l w) = proj w) ->
  keeps proj (check_item_for_match show_name episode).
Proof.
  intros H. unfold check_item_for_match, fetch_search_titles, extractOne.
  keeps_auto; apply keeps_modify; intros w; apply H.
Qed.

Lemma check_item_keeps {B} (proj : World -> B) item :
  (forall l w, proj (set_scored l w) = proj w) ->
  (forall o w, proj (set_stdout o w) = proj w) ->
  keeps proj (check_item item).
Proof.
  intros Hs Ho.
  unfold check_item, get_torrent_link, hook, getitem, the_parser, deluge_get_magnet, print.
  keeps_auto; try (apply check_item_for_match_keeps, Hs);
    try (apply keeps_modify; intros w; apply Ho).
Qed.

Lemma poll_parser_keeps {B} (proj : World -> B) parser :
  (forall l w, proj (set_scored l w) = proj w) ->
  (forall o w, proj (set_stdout o w) = proj w) ->
  (forall p w, proj (set_current_parser p w) = proj w) ->
  keeps proj (poll_parser parser).
Proof.
  intros Hs Ho Hp. unfold poll_parser, get_feed_from_parser, the_parser, check_feed.
  apply keeps_bind; [apply keeps_modify; intros w; apply Hp | intros _].
  apply keeps_bind.
  - keeps_auto. now intros w.
  - intros feed. apply keeps_for_each. intros item. now apply check_item_keeps.
Qed.

Lemma poller_start_keeps {B} (proj : World -> B) cycles :
  (forall l w, proj (set_scored l w) = proj w) ->
  (forall o w, proj (set_stdout o w) = proj w) ->
  (forall p w, proj (set_current_parser p w) = proj w) ->
  keeps proj (poller_start cycles).
Proof.
  intros Hs Ho Hp. induction cycles as [|n IH]; simpl; keeps_auto; [|exact IH].
  unfold poll_cycle. keeps_auto. now apply poll_parser_keeps.
Qed.

(** ** The feed poller *)

(** C1 (the code falls short of the claim).  [check_item] runs the ignore
    predicate, the extraction, the match and the link resolution, and then
    prints the show name and the episode: it never reaches
    [begin_handling].  Whatever the item, and however many poll cycles
    run, the [show_entry] table and the torrent client's session stay as
    they were, so no row in state [downloading] is created. *)
Theorem poller_never_begins_handling (item : Item) (cycles : nat) (w : World) :
  entries (check_item item w).1 = entries w
  /\ torrents (check_item item w).1 = torrents w
  /\ entries (poller_start cycles w).1 = entries w
  /\ torrents (poller_start cycles w).1 = torrents w.
Proof.
  repeat split.
  - now apply (check_item_keeps entries).
  - now apply (check_item_keeps torrents).
  - now apply (poller_start_keeps entries).
  - now apply (poller_start_keeps torrents).
Qed.

(** C3 (the code falls short of the claim).  The match step reads the
    [shows] table only: its answer is the same whatever the [show_entry]
    table holds and whatever the episode is, so an episode that is already
    tracked is matched again. *)
Theorem check_item_for_match_ignores_entries
    (show_name : string) (episode episode' : Z) (tracked : list ShowEntry) (w : World) :
  (check_item_for_match show_name episode (set_entries tracked w)).2
  = (check_item_for_match show_name episode' w).2.
Proof.
  unfold check_item_for_match, fetch_search_titles, extractOne, bind, gets, modify, ret.
  simpl. destruct (map search_title (shows w)) as [|t l]; [reflexivity|].
  simpl. now destruct (90 <=? _)%Z.
Qed.

Lemma max_by_score_In (best : string * Z) (l : list (string * Z)) :
  In (max_by_score best l) (best :: l).
Proof.
  revert best. induction l as [|c l IH]; intros best; simpl; [now left|].
  destruct (IH (if (best.2 <? c.2)%Z then c else best)) as [H|H].
  - rewrite <- H. destruct (best.2 <? c.2)%Z; auto.
  - auto.
Qed.

Lemma extractOne_best (query : string) (choices : list string) (w : World) :
  match (extractOne query choices w).2 with
  | Ok (Some m) => In m.1 choices /\ m.2 = score query m.1
  | Ok None => choices = []
  | Raise _ => False
  end.
Proof.
  unfold extractOne, bind, modify, ret. simpl.
  destruct choices as [|c l]; [reflexivity|].
  cbn [map]. set (scores := map (fun c => (c, score query c)) l).
  pose proof (max_by_score_In (c, score query c) scores) as Hin.
  change ((c, score query c) :: scores)
    with (map (fun c => (c, score query c)) (c :: l)) in Hin.
  apply in_map_iff in Hin as (t & Ht & Hin). rewrite <- Ht. simpl. auto.
Qed.

(** C7.  The match resolver returns a title of the [shows] table whose score
    against the candidate is at least 90, or no match, and it never fails.
    With no show in the table it answers no match and leaves the world as
    it was: nothing has been handed to the scorer. *)
Theorem check_item_for_match_sound (show_name : string) (episode : Z) (w : World) :
  match (check_item_for_match show_name episode w).2 with
  | Ok (Some title) =>
      In title (map search_title (shows w)) /\ (90 <= score show_name title)%Z
  | Ok None => True
  | Raise _ => False
  end
  /\ (shows w = [] -> check_item_for_match show_name episode w = (w, Ok None)).
Proof.
  split.
  - unfold check_item_for_match, fetch_search_titles, bind, gets. cbv beta iota.
    destruct (map search_title (shows w)) as [|t l] eqn:Hl; [exact I|].
    pose proof (extractOne_best show_name (t :: l) w) as Hbest.
    destruct (extractOne show_name (t :: l) w) as [w' [[m|]|e]];
      cbn [snd] in Hbest; [|discriminate|contradiction].
    destruct Hbest as [Hin Hscore].
    destruct (90 <=? m.2)%Z eqn:Hle; cbn; [|exact I].
    split; [exact Hin|]. rewrite <- Hscore. now apply Z.leb_le.
  - intros Hnone. unfold check_item_for_match, fetch_search_titles, bind, gets.
    simpl. now rewrite Hnone.
Qed.

(** ** The download watcher *)

Lemma get_file_path_cases (file_location file_name : string) (w : World) :
  get_file_path file_location file_name w
  = (w, match fs w !! watched_dir with
        | Some Dir => Ok (Path.join watched_dir file_name)
        | _ => Raise (SavePathDoesNotExist
                        "'C:/Users/Tyler/Documents/GitHub/Tsundoku/test/' could not be read")
        end).
Proof.
  rewrite get_file_path_unfold. unfold bind, is_dir, gets. simpl.
  now destruct (fs w !! watched_dir) as [[c|]|].
Qed.

Lemma get_file_path_run (file_location file_name : string) (w : World) :
  fs w !! watched_dir = Some Dir ->
  get_file_path file_location file_name w = (w, Ok (Path.join watched_dir file_name)).
Proof. intros Hdir. rewrite get_file_path_cases. now rewrite Hdir. Qed.

(** C4 (the code falls short of the claim).  [get_file_path] overwrites its
    first argument: two save paths reported by the torrent client give the
    same result, which is the display name under one fixed directory, or
    the fault [SavePathDoesNotExist] when that directory is missing. *)
Theorem get_file_path_ignores_save_path
    (file_location file_location' file_name : string) (w : World) :
  get_file_path file_location file_name w = get_file_path file_location' file_name w
  /\ ((get_file_path file_location file_name w).2 = Ok (Path.join watched_dir file_name)
      \/ exists msg, (get_file_path file_location file_name w).2
                     = Raise (SavePathDoesNotExist msg)).
Proof.
  split; [now rewrite !get_file_path_cases|].
  rewrite get_file_path_cases. simpl.
  destruct (fs w !! watched_dir) as [[c|]|]; eauto.
Qed.

Lemma check_show_entry_unknown (entry : ShowEntry) (w : World) :
  torrents w !! torrent_hash entry = None ->
  check_show_entry entry w = (w, Raise (EntryNotInDeluge (missing_from_deluge entry))).
Proof.
  intros Hnone.
  unfold check_show_entry, deluge_get_torrent, try_except, gets, bind.
  cbv beta iota. now rewrite Hnone.
Qed.

Lemma for_each_check_raises (entry : ShowEntry) (l : list ShowEntry) :
  In entry l -> forall w, torrents w !! torrent_hash entry = None ->
  exists e, (for_each check_show_entry l w).2 = Raise e.
Proof.
  induction l as [|x l IH]; intros Hin w Hnone; [contradiction|].
  simpl. unfold bind.
  pose proof (check_show_entry_keeps torrents x (fun _ _ => eq_refl) w) as Hkeep.
  destruct Hin as [->|Hin].
  - rewrite (check_show_entry_unknown entry w Hnone). simpl. eauto.
  - destruct (check_show_entry x w) as [w' [[]|e]]; simpl in *; [|eauto].
    apply IH; [exact Hin | now rewrite Hkeep].
Qed.

(** C9.  When the torrent client does not know the handle of an entry in
    state [downloading], checking that entry raises [EntryNotInDeluge] with
    a message that carries the entry's show id and episode; the world is
    untouched, and the watcher cycle that meets the entry ends in a fault
    instead of returning as it does for an unfinished download. *)
Theorem unknown_handle_is_a_fault (entry : ShowEntry) (w : World) :
  In entry (entries w) ->
  current_state entry = "downloading" ->
  torrents w !! torrent_hash entry = None ->
  check_show_entry entry w
  = (w, Raise (EntryNotInDeluge
                 ("Show Entry with ID " +:+ Py.str (show_id entry) +:+ " Episode "
                  +:+ Py.str (episode entry) +:+ " missing from Deluge.")))
  /\ exists e, (check_show_entries w).2 = Raise e.
Proof.
  intros Hin Hstate Hnone. split.
  - exact (check_show_entry_unknown entry w Hnone).
  - unfold check_show_entries, bind, fetch_downloading, gets. simpl.
    apply for_each_check_raises with (entry := entry); [|exact Hnone].
    apply filter_In. split; [exact Hin|]. now apply String.eqb_eq.
Qed.

(** ** The administrative surface *)

(** C10.  Asked for a show id that no row of [shows] carries, or for a show
    id and entry id that no row of [show_entry] carries together, the two
    GET views answer with status 200 and the body [{}]. *)
Theorem get_by_id_not_found (sid eid : Z) (w : World) :
  ((forall s, In s (shows w) -> s_id s <> sid) ->
   get_show_by_id sid w = (w, Ok {| status := 200; body := "{}" |}))
  /\ ((forall e, In e (entries w) -> ~ (show_id e = sid /\ e_id e = eid)) ->
      get_show_entry_by_entry_id sid eid w = (w, Ok {| status := 200; body := "{}" |})).
Proof.
  split; intros Hnone.
  - unfold get_show_by_id, bind, fetch_show, gets, ret. simpl.
    destruct (List.find _ (shows w)) as [s|] eqn:Hfind; [|reflexivity].
    apply find_some in Hfind as [Hin Heq].
    apply Z.eqb_eq in Heq. now destruct (Hnone s Hin).
  - unfold get_show_entry_by_entry_id, bind, fetch_entry, gets, ret. simpl.
    destruct (List.find _ (entries w)) as [e|] eqn:Hfind; [|reflexivity].
    apply find_some in Hfind as [Hin Heq].
    apply andb_prop in Heq as [H1 H2].
    apply Z.eqb_eq in H1, H2. now destruct (Hnone e Hin).
Qed.

(** ** Renaming *)



Lemma drop_is_a_tail (i : nat) (n : string) : exists stem, n = stem +:+ Py.drop i n.
Proof.
  revert n. induction i as [|i IH]; intros n.
  - exists "". now destruct n.
  - destruct n as [|c r]; [now exists ""|].
    destruct (IH r) as [stem Hstem]. exists (String c stem).
    simpl. now rewrite <- Hstem.
Qed.

Lemma suffix_is_a_tail (path : Path.t) :
  exists stem, Path.name path = stem +:+ Path.suffix path.
Proof.
  unfold Path.suffix.
  destruct (Path.rfind_dot (Path.name path)) as [i|].
  - destruct (_ && _)%bool; [apply drop_is_a_tail|].
    exists (Path.name path). now rewrite append_empty_r.
  - exists (Path.name path). now rewrite append_empty_r.
Qed.

Lemma name_of_with_name (path : Path.t) (n : string) :
  Path.valid_name n = true -> Path.name (removelast path ++ [n])%list = n.
Proof.
  intros Hvalid. unfold Path.name. rewrite last_last.
  destruct n as [|c r]; [reflexivity|].
  unfold Path.valid_name in Hvalid. apply negb_true_iff in Hvalid.
  apply orb_false_elim in Hvalid as [_ Hslash]. simpl in Hslash.
  apply orb_false_elim in Hslash as [Hc _].
  destruct (Ascii.eqb_spec c "/"); [discriminate|].
  destruct c as [[] [] [] [] [] [] [] []]; try reflexivity. contradiction.
Qed.

Lemma handle_rename_run (entry : ShowEntry) (path new_path : Path.t)
    (s : Show) (content : string) (w : World) :
  List.find (fun s => (s_id s =? show_id entry)%Z) (shows w) = Some s ->
  Path.with_name path
    (Py.re_sub (formatting_re s entry) (file_fmt s) +:+ Path.suffix path)
  = Some new_path ->
  fs w !! path = Some (File content) ->
  fs w !! new_path <> Some Dir ->
  handle_rename entry path w
  = (set_fs (<[new_path := File content]> (delete path (fs w))) w, Ok new_path).
Proof.
  intros Hshow Hname Hfile Hdst.
  unfold handle_rename, fetch_show, path_with_name, os_rename, gets, bind.
  cbv beta iota zeta. rewrite Hshow. cbv beta iota. rewrite Hname.
  unfold ret at 1. cbv beta iota. rewrite Hfile.
  destruct (fs w !! new_path) as [[c|]|]; try reflexivity. contradiction.
Qed.

(** C6, amended.  Renaming a tracked file that exists gives it, in the same
    directory, the name made of the substituted template and the suffix of
    the old name.  The template is the show's [desired_format], or
    [{n} - {s00e00}] when [desired_format] is unset or empty.  The season
    comes from [season], the episode is [episode + episode_offset], and the
    suffix is a tail of the old name. *)
Theorem handle_rename_names_the_file
    (entry : ShowEntry) (path : Path.t) (s : Show) (content : string) (w : World) :
  List.find (fun s => (s_id s =? show_id entry)%Z) (shows w) = Some s ->
  fs w !! path = Some (File content) ->
  Path.name path <> "" ->
  forall template name,
  template = match desired_format s with
             | None => "{n} - {s00e00}"
             | Some f => if String.eqb f "" then "{n} - {s00e00}" else f
             end ->
  name = Py.re_sub (formatting_re s entry) template +:+ Path.suffix path ->
  Path.valid_name name = true ->
  fs w !! (removelast path ++ [name])%list <> Some Dir ->
  handle_rename entry path w
  = (set_fs (<[(removelast path ++ [name])%list := File content]> (delete path (fs w))) w,
     Ok (removelast path ++ [name])%list)
  /\ Path.name (removelast path ++ [name])%list = name
  /\ (exists stem, Path.name path = stem +:+ Path.suffix path)
  /\ formatting_re s entry "n" = search_title s
  /\ formatting_re s entry "s" = Py.str (season s)
  /\ formatting_re s entry "e" = Py.str (episode entry + episode_offset s)
  /\ formatting_re s entry "s00" = Py.zfill 2 (Py.str (season s))
  /\ formatting_re s entry "e00" = Py.zfill 2 (Py.str (episode entry + episode_offset s))
  /\ formatting_re s entry "s00e00"
     = "S" +:+ Py.zfill 2 (Py.str (season s)) +:+ "E"
       +:+ Py.zfill 2 (Py.str (episode entry + episode_offset s))
  /\ formatting_re s entry "sxe"
     = Py.str (season s) +:+ "x" +:+ Py.zfill 2 (Py.str (episode entry + episode_offset s)).
Proof.
  intros Hshow Hfile Hpath template name Htemplate Hname Hvalid Hdst.
  assert (Hfmt : template = file_fmt s).
  { rewrite Htemplate. unfold file_fmt.
    destruct (desired_format s) as [[|c r]|]; reflexivity. }
  split; [|split; [|split]].
  - apply handle_rename_run with (s := s); try assumption.
    rewrite <- Hfmt, <- Hname. unfold Path.with_name.
    destruct (String.eqb_spec (Path.name path) ""); [contradiction|].
    now rewrite Hvalid.
  - now apply name_of_with_name.
  - apply suffix_is_a_tail.
  - repeat split; reflexivity.
Qed.

(** ** One watcher cycle on one entry *)

Lemma check_show_entry_skip (entry : ShowEntry) (info : TorrentInfo) (w : World) :
  torrents w !! torrent_hash entry = Some info ->
  fs w !! watched_dir = Some Dir ->
  (forall content, fs w !! Path.join watched_dir (info_name info) <> Some (File content)) ->
  check_show_entry entry w = (w, Ok tt).
Proof.
  intros Htorrent Hdir Hfile.
  unfold check_show_entry, deluge_get_torrent, try_except, gets, bind.
  cbv beta iota. rewrite Htorrent. unfold ret at 1. cbv beta iota.
  rewrite get_file_path_run by assumption. unfold is_file, gets.
  destruct (fs w !! Path.join watched_dir (info_name info)) as [[c|]|] eqn:Hpath;
    try reflexivity.
  now destruct (Hfile c).
Qed.

Lemma check_show_entry_run (entry : ShowEntry) (info : TorrentInfo) (s : Show)
    (content : string) (new_path : Path.t) (w : World) :
  torrents w !! torrent_hash entry = Some info ->
  fs w !! watched_dir = Some Dir ->
  fs w !! Path.join watched_dir (info_name info) = Some (File content) ->
  List.find (fun s => (s_id s =? show_id entry)%Z) (shows w) = Some s ->
  Path.with_name (Path.join watched_dir (info_name info))
    (Py.re_sub (formatting_re s entry) (file_fmt s)
     +:+ Path.suffix (Path.join watched_dir (info_name info)))
  = Some new_path ->
  fs w !! new_path <> Some Dir ->
  check_show_entry entry w
  = (set_fs (<[new_path := File content]>
               (delete (Path.join watched_dir (info_name info)) (fs w))) w,
     Ok tt).
Proof.
  intros Htorrent Hdir Hfile Hshow Hname Hdst.
  unfold check_show_entry, deluge_get_torrent, try_except, gets, bind.
  cbv beta iota. rewrite Htorrent. unfold ret at 1. cbv beta iota.
  rewrite get_file_path_run by assumption. unfold is_file, gets.
  rewrite Hfile. cbv beta iota. change (negb true) with false. cbv beta iota.
  now rewrite (handle_rename_run entry _ new_path s content w).
Qed.

(** C2, amended.  Take an entry in state [downloading] whose torrent
    reports, as save path, the directory the watcher reads, and whose
    backing file exists in that directory under the reported name; the
    show exists and the new name is accepted and not taken by a directory.
    Then the check of one watcher cycle renames the file, and leaves the
    [show_entry] table as it was: the entry stays in state [downloading]
    and the next cycle fetches it again.  That next check does nothing when
    the new name differs from the reported one, because the file is no
    longer where the torrent client says.  No number of watcher cycles
    changes the table. *)
Theorem watcher_renames_and_keeps_downloading
    (entry : ShowEntry) (info : TorrentInfo) (s : Show) (content : string)
    (new_path : Path.t) (w : World) :
  In entry (entries w) ->
  current_state entry = "downloading" ->
  torrents w !! torrent_hash entry = Some info ->
  Path.of_string (replace_backslash (info_save_path info)) = watched_dir ->
  fs w !! watched_dir = Some Dir ->
  fs w !! reported_path info = Some (File content) ->
  List.find (fun s => (s_id s =? show_id entry)%Z) (shows w) = Some s ->
  Path.with_name (reported_path info)
    (Py.re_sub (formatting_re s entry) (file_fmt s)
     +:+ Path.suffix (reported_path info))
  = Some new_path ->
  fs w !! new_path <> Some Dir ->
  exists w',
    check_show_entry entry w = (w', Ok tt)
    /\ fs w' = <[new_path := File content]> (delete (reported_path info) (fs w))
    /\ entries w' = entries w
    /\ (exists rows, fetch_downloading w' = (w', Ok rows) /\ In entry rows)
    /\ (new_path <> reported_path info -> check_show_entry entry w' = (w', Ok tt))
    /\ forall cycles, entries (downloader_start cycles w).1 = entries w.
Proof.
  intros Hin Hstate Htorrent Hplace Hdir Hfile Hshow Hname Hdst.
  assert (Hreported : reported_path info = Path.join watched_dir (info_name info))
    by (unfold reported_path; now rewrite Hplace).
  rewrite Hreported in *.
  exists (set_fs (<[new_path := File content]>
                    (delete (Path.join watched_dir (info_name info)) (fs w))) w).
  split; [apply (check_show_entry_run entry info s content new_path w); assumption|].
  split; [reflexivity|]. split; [reflexivity|]. split; [|split].
  - eexists. split; [reflexivity|]. simpl.
    apply filter_In. split; [exact Hin | now apply String.eqb_eq].
  - intros Hmoved. apply check_show_entry_skip with (info := info).
    + exact Htorrent.
    + simpl. rewrite lookup_insert_ne by congruence.
      rewrite lookup_delete_ne by congruence. exact Hdir.
    + intros c. simpl. rewrite lookup_insert_ne by exact Hmoved.
      now rewrite lookup_delete_eq.
  - intros cycles. now apply (downloader_start_keeps entries).
Qed.

(** ** One poll cycle over several sources *)



Lemma check_item_without_title (item : Item) (p : Parser) (w : World) :
  current_parser w = Some p ->
  match ignore_logic p with Some f => f item = true | None => True end ->
  get_file_name p = None ->
  item !! "title" = None ->
  check_item item w = (w, Raise (KeyError "title")).
Proof.
  intros Hp Hignore Hname Htitle. unfold check_item, hook, gets, getitem.
  unfold bind at 1. rewrite Hp. simpl.
  destruct (ignore_logic p) as [f|]; [rewrite Hignore|]; simpl;
    unfold bind; rewrite Hp; simpl; rewrite Hname, Htitle; reflexivity.
Qed.



End Properties.

(** * Further properties of the code *)

(** ** Templates *)

Lemma re_sub_no_brace repl (t : string) : no_brace t = true -> Py.re_sub repl t = t.
Proof.
  unfold Py.re_sub. induction t as [|c r IH]; intros Ht; simpl in *; [reflexivity|].
  apply andb_prop in Ht as [Hc Hr]. apply negb_true_iff in Hc. rewrite Hc.
  now rewrite IH.
Qed.

(** X1.  A template without an opening brace is the file name as it
    stands: nothing in it is substituted. *)
Theorem template_without_brace_is_verbatim (s : Show) (entry : ShowEntry) (t : string) :
  no_brace t = true -> Py.re_sub (formatting_re s entry) t = t.
Proof. apply re_sub_no_brace. Qed.

Lemma re_sub_split repl (pre w post : string) :
  all_word w = true -> w <> "" ->
  Py.re_sub repl (pre +:+ String "{" (w +:+ String "}" post))
  = Py.re_sub repl pre +:+ repl w +:+ Py.re_sub repl post.
Proof.
  intros Hw Hne. unfold Py.re_sub at 1.
  rewrite sub_from_append; [| split; [reflexivity | discriminate] | discriminate | lia].
  fold (Py.re_sub repl pre).
  fold (Py.re_sub repl (String "{" (w +:+ String "}" post))).
  now rewrite re_sub_placeholder.
Qed.

(** X2.  Substitution works placeholder by placeholder: the text before a
    placeholder and the text after it are substituted on their own, and
    the value put in for the placeholder is not read again, whatever
    braces it contains. *)
Theorem substitution_splits_at_a_placeholder
    (s : Show) (entry : ShowEntry) (pre w post : string) :
  all_word w = true -> w <> "" ->
  Py.re_sub (formatting_re s entry) (pre +:+ String "{" (w +:+ String "}" post))
  = Py.re_sub (formatting_re s entry) pre +:+ formatting_re s entry w
    +:+ Py.re_sub (formatting_re s entry) post.
Proof. apply re_sub_split. Qed.








Lemma root_after_other (c : ascii) (r : string) :
  Ascii.eqb c "/" = false -> Path.root (String c r) = [].
Proof.
  destruct c as [[] [] [] [] [] [] [] []]; try reflexivity. discriminate.
Qed.




(** Every name the later rule of [with_name] accepts passes the earlier
    rule as well. *)
Lemma valid_name_is_valid_legacy (n : string) :
  Path.valid_name n = true -> Path.valid_name_legacy n = true.
Proof.
  unfold Path.valid_name, Path.valid_name_legacy. intros Hvalid.
  apply negb_true_iff in Hvalid.
  apply orb_false_elim in Hvalid as [Hvalid Hslash].
  apply orb_false_elim in Hvalid as [Hempty Hdot].
  assert (Hsplit : Path.split_slash n = [n]).
  { clear Hempty Hdot. induction n as [|c r IH]; [reflexivity|].
    cbn [Path.has_slash] in Hslash. apply orb_false_elim in Hslash as [Hc Hr].
    cbn [Path.split_slash]. now rewrite Hc, (IH Hr). }
  assert (Hroot : Path.root n = []).
  { destruct n as [|c r]; [reflexivity|].
    cbn [Path.has_slash] in Hslash. apply orb_false_elim in Hslash as [Hc _].
    now apply root_after_other. }
  assert (Hend : Path.ends_with_slash n = false).
  { clear Hempty Hdot Hsplit Hroot. induction n as [|c r IH]; [reflexivity|].
    cbn [Path.has_slash] in Hslash. apply orb_false_elim in Hslash as [Hc Hr].
    cbn [Path.ends_with_slash]. destruct r; [exact Hc | now apply IH]. }
  unfold Path.of_string. rewrite Hroot, Hsplit, Hempty, Hend.
  cbn [List.filter app]. unfold Path.is_component. rewrite Hempty, Hdot.
  reflexivity.
Qed.


Lemma length_zeros (n : nat) : String.length (Py.zeros n) = n.
Proof. induction n as [|n IH]; simpl; [reflexivity | now rewrite IH]. Qed.

(** X4.  Zero padding never cuts: the padded text is as long as the wider
    of the text and the width, and a text that already fills the width
    comes back unchanged. *)
Theorem zfill_length (width : nat) (s : string) :
  String.length (Py.zfill width s) = Nat.max width (String.length s)
  /\ ((width <= String.length s)%nat -> Py.zfill width s = s).
Proof.
  unfold Py.zfill. destruct (Nat.leb_spec width (String.length s)) as [Hle|Hlt].
  - split; [now rewrite Nat.max_r | reflexivity].
  - split; [|lia]. rewrite Nat.max_l by lia.
    destruct s as [|c r]; simpl in *.
    + rewrite length_zeros. lia.
    + destruct (Py.is_sign c); simpl; rewrite length_append, length_zeros; simpl; lia.
Qed.


(** ** Reading integers *)

Lemma all_digits_uint (d : Decimal.uint) :
  PyInt.all_digits (NilEmpty.string_of_uint d) = true.
Proof. induction d; simpl; auto. Qed.

Lemma is_digit_plain (c : ascii) :
  PyInt.is_digit c = true ->
  PyInt.is_space c = false /\ Ascii.eqb c "_" = false
  /\ Ascii.eqb c "-" = false /\ Ascii.eqb c "+" = false.
Proof.
  destruct c as [[] [] [] [] [] [] [] []]; intros H; try discriminate H;
    repeat split.
Qed.

Lemma rstrip_digits (s : string) : PyInt.all_digits s = true -> PyInt.rstrip s = s.
Proof.
  induction s as [|c r IH]; intros Hs; simpl in *; [reflexivity|].
  apply andb_prop in Hs as [Hc Hr]. rewrite (IH Hr).
  apply is_digit_plain in Hc as (Hc & _).
  destruct r; [now rewrite Hc | reflexivity].
Qed.

Lemma ungroup_digits (s : string) (after_digit : bool) :
  PyInt.all_digits s = true -> s <> "" \/ after_digit = true ->
  PyInt.ungroup after_digit s = Some s.
Proof.
  revert after_digit. induction s as [|c r IH]; intros b Hs Hb; simpl in *.
  - destruct Hb as [Hb| ->]; [contradiction | reflexivity].
  - apply andb_prop in Hs as [Hc Hr].
    apply is_digit_plain in Hc as (_ & Hc & _). rewrite Hc.
    rewrite (IH true Hr); [reflexivity | now right].
Qed.

Lemma digits_value_uint (d : Decimal.uint) :
  d <> Decimal.Nil ->
  (String.length (NilEmpty.string_of_uint d) <= PyInt.max_str_digits)%nat ->
  PyInt.digits_value (NilEmpty.string_of_uint d) = Some (Z.of_uint d).
Proof.
  intros Hd Hlen. unfold PyInt.digits_value.
  rewrite ungroup_digits; [| apply all_digits_uint | left; now destruct d].
  rewrite (proj2 (Nat.ltb_ge _ _) Hlen). now rewrite NilEmpty.usu.
Qed.

Lemma int_of_uint (d : Decimal.uint) :
  d <> Decimal.Nil ->
  (String.length (NilEmpty.string_of_uint d) <= PyInt.max_str_digits)%nat ->
  PyInt.int (NilEmpty.string_of_uint d) = Some (Z.of_uint d)
  /\ PyInt.int (String "-" (NilEmpty.string_of_uint d)) = Some (- Z.of_uint d)%Z.
Proof.
  intros Hd Hlen. pose proof (all_digits_uint d) as Hall.
  pose proof (digits_value_uint d Hd Hlen) as Hvalue. clear Hlen.
  unfold PyInt.int, PyInt.strip. split.
  - destruct (NilEmpty.string_of_uint d) as [|c r] eqn:Hs; [now destruct d|].
    cbn [PyInt.all_digits] in Hall. apply andb_prop in Hall as [Hc Hr].
    pose proof (is_digit_plain c Hc) as (Hspace & _ & Hminus & Hplus).
    cbn [PyInt.lstrip]. rewrite Hspace.
    rewrite rstrip_digits by (cbn [PyInt.all_digits]; now rewrite Hc, Hr).
    now rewrite Hminus, Hplus.
  - cbn [PyInt.lstrip]. change (PyInt.is_space "-") with false. cbv iota.
    cbn [PyInt.rstrip]. rewrite rstrip_digits by exact Hall.
    destruct (NilEmpty.string_of_uint d) as [|c r] eqn:Hs; [now destruct d|].
    change (Ascii.eqb "-" "-") with true. cbv iota. now rewrite Hvalue.
Qed.

Lemma int_of_str (z : Z) :
  (String.length (Py.str z) <= PyInt.max_str_digits)%nat ->
  PyInt.int (Py.str z) = Some z.
Proof.
  destruct z as [|p|p]; intros Hlen.
  - reflexivity.
  - pose proof (Unsigned.to_uint_nonnil p) as Hnil.
    unfold Py.str in *. cbn [Z.to_int] in *.
    unfold NilZero.string_of_int, NilZero.string_of_uint in *.
    assert (Hdigits : (String.length (NilEmpty.string_of_uint (Pos.to_uint p))
                       <= PyInt.max_str_digits)%nat)
      by (destruct (Pos.to_uint p); try contradiction; exact Hlen).
    destruct (int_of_uint (Pos.to_uint p) Hnil Hdigits) as [H _].
    destruct (Pos.to_uint p) eqn:Hp; try contradiction; rewrite H;
      f_equal; rewrite <- Hp; apply (of_to (Z.pos p)).
  - pose proof (Unsigned.to_uint_nonnil p) as Hnil.
    unfold Py.str in *. cbn [Z.to_int] in *.
    unfold NilZero.string_of_int, NilZero.string_of_uint in *.
    assert (Hdigits : (String.length (NilEmpty.string_of_uint (Pos.to_uint p))
                       <= PyInt.max_str_digits)%nat)
      by (destruct (Pos.to_uint p); try contradiction;
          cbn [String.length] in Hlen; lia).
    destruct (int_of_uint (Pos.to_uint p) Hnil Hdigits) as [_ H].
    destruct (Pos.to_uint p) eqn:Hp; try contradiction; rewrite H;
      f_equal; rewrite <- Hp; apply (of_to (Z.neg p)).
Qed.

Lemma lstrip_blank (l s : string) :
  PyInt.is_blank l = true -> PyInt.lstrip (l +:+ s) = PyInt.lstrip s.
Proof.
  induction l as [|c l IH]; [reflexivity|].
  cbn [PyInt.is_blank]. intros Hl. apply andb_prop in Hl as [Hc Hl].
  change (String c l +:+ s) with (String c (l +:+ s)).
  cbn [PyInt.lstrip]. rewrite Hc. now apply IH.
Qed.

Lemma rstrip_of_blank (r : string) :
  PyInt.is_blank r = true -> PyInt.rstrip r = "".
Proof.
  induction r as [|c r IH]; [reflexivity|].
  cbn [PyInt.is_blank]. intros Hr. apply andb_prop in Hr as [Hc Hr].
  cbn [PyInt.rstrip]. now rewrite (IH Hr), Hc.
Qed.

Lemma rstrip_blank (s r : string) :
  PyInt.is_blank r = true -> PyInt.rstrip (s +:+ r) = PyInt.rstrip s.
Proof.
  intros Hr. induction s as [|c s IH]; [now apply rstrip_of_blank|].
  change (String c s +:+ r) with (String c (s +:+ r)).
  cbn [PyInt.rstrip]. now rewrite IH.
Qed.

Lemma strip_blanks (l s r : string) :
  PyInt.is_blank l = true -> PyInt.is_blank r = true ->
  PyInt.strip (l +:+ s +:+ r) = PyInt.strip s.
Proof.
  intros Hl Hr. unfold PyInt.strip. rewrite (lstrip_blank l _ Hl).
  induction s as [|c s IH].
  - change ("" +:+ r) with r.
    assert (Hblank : PyInt.lstrip r = "").
    { clear Hl. induction r as [|d r IHr]; [reflexivity|].
      cbn [PyInt.is_blank] in Hr. apply andb_prop in Hr as [Hd Hr].
      cbn [PyInt.lstrip]. rewrite Hd. now apply IHr. }
    now rewrite Hblank.
  - change (String c s +:+ r) with (String c (s +:+ r)).
    cbn [PyInt.lstrip]. destruct (PyInt.is_space c); [exact IH|].
    change (String c (s +:+ r)) with (String c s +:+ r).
    now apply rstrip_blank.
Qed.

(** X5.  The decimal writing of an integer, of at most 4300 characters and
    with any blanks before and after it, is accepted as polling interval
    and read as that integer; zero and negative intervals are accepted like
    any other. *)
Theorem Poller_init_reads_decimal (z : Z) (l r : string) :
  (String.length (Py.str z) <= PyInt.max_str_digits)%nat ->
  PyInt.is_blank l = true -> PyInt.is_blank r = true ->
  Poller_init (l +:+ Py.str z +:+ r) = PollerWith z.
Proof.
  intros Hlen Hl Hr. pose proof (int_of_str z Hlen) as Hint.
  unfold Poller_init, PyInt.int in *.
  rewrite (strip_blanks l (Py.str z) r Hl Hr).
  destruct (PyInt.strip (Py.str z)) as [|c t]; [discriminate|].
  now rewrite Hint.
Qed.

Lemma In_lstrip (c : ascii) (s : string) :
  In c (list_ascii_of_string s) -> PyInt.is_space c = false ->
  In c (list_ascii_of_string (PyInt.lstrip s)).
Proof.
  intros Hin Hc. induction s as [|x r IH]; simpl in *; [contradiction|].
  destruct (PyInt.is_space x) eqn:Hx; [|exact Hin].
  destruct Hin as [->|Hin]; [congruence | now apply IH].
Qed.

Lemma In_rstrip (c : ascii) (s : string) :
  In c (list_ascii_of_string s) -> PyInt.is_space c = false ->
  In c (list_ascii_of_string (PyInt.rstrip s)).
Proof.
  intros Hin Hc. induction s as [|x r IH]; simpl in *; [contradiction|].
  destruct Hin as [->|Hin].
  - destruct (PyInt.rstrip r); [rewrite Hc|]; now left.
  - specialize (IH Hin). destruct (PyInt.rstrip r); [contradiction | now right].
Qed.

Lemma digits_value_rejects (c : ascii) (s : string) :
  In c (list_ascii_of_string s) -> PyInt.is_digit c = false -> Ascii.eqb c "_" = false ->
  PyInt.digits_value s = None.
Proof.
  intros Hin Hdigit Hunder. unfold PyInt.digits_value.
  destruct (PyInt.ungroup false s) as [digits|] eqn:Hu; [|reflexivity].
  destruct (PyInt.max_str_digits <? String.length digits)%nat; [reflexivity|].
  assert (Hin' : In c (list_ascii_of_string digits)).
  { clear Hdigit. revert digits Hu. generalize false.
    induction s as [|x r IH]; intros b digits Hu; simpl in *; [contradiction|].
    destruct (Ascii.eqb_spec x "_") as [->|Hx].
    - destruct Hin as [<-|Hin]; [discriminate|].
      destruct b; [now apply (IH Hin false) | discriminate].
    - destruct (PyInt.ungroup true r) as [ds|] eqn:Hr; [|discriminate].
      injection Hu as <-. simpl. destruct Hin as [->|Hin]; [now left | right].
      now apply (IH Hin true). }
  clear Hu. induction digits as [|x r IH]; simpl in *; [contradiction|].
  destruct Hin' as [->|Hin'].
  - destruct (NilEmpty.uint_of_string r); [|reflexivity].
    destruct c as [[] [] [] [] [] [] [] []]; try reflexivity; discriminate.
  - specialize (IH Hin').
    destruct (NilEmpty.uint_of_string r); [discriminate IH | reflexivity].
Qed.

(** X6.  A configured interval in ASCII with a character that no numeral
    can hold (anything but digits, the six ASCII blanks, signs and
    underscores) stops the constructor with [InvalidPollerInterval], whose
    message quotes the configured text. *)
Theorem Poller_init_rejects_foreign_text (interval : string) (c : ascii) :
  PyInt.is_ascii interval = true ->
  In c (list_ascii_of_string interval) -> PyInt.plausible c = false ->
  Poller_init interval
  = InvalidPollerInterval ("'" +:+ interval +:+ "' is an invalid polling interval.").
Proof.
  intros _ Hin Hc. unfold PyInt.plausible in Hc.
  repeat (apply orb_false_elim in Hc as [Hc ?]).
  assert (Hstrip : In c (list_ascii_of_string (PyInt.strip interval)))
    by now apply In_rstrip; [apply In_lstrip|].
  unfold Poller_init, PyInt.int.
  destruct (PyInt.strip interval) as [|x r]; [contradiction|].
  simpl in Hstrip.
  destruct (Ascii.eqb_spec x "-") as [->|Hminus].
  - destruct Hstrip as [<-|Hstrip]; [discriminate|].
    now rewrite (digits_value_rejects c r).
  - destruct (Ascii.eqb_spec x "+") as [->|Hplus].
    + destruct Hstrip as [<-|Hstrip]; [discriminate|].
      now rewrite (digits_value_rejects c r).
    + now rewrite (digits_value_rejects c (String x r)).
Qed.

(** ** JSON text *)

Lemma unescape_escape_char (c : ascii) (rest : string) :
  JsonText.unescape (Json.escape_char c +:+ rest) = String c (JsonText.unescape rest).
Proof. destruct c as [[] [] [] [] [] [] [] []]; reflexivity. Qed.

(** X7.  Escaping loses nothing: reading back the inside of a string
    literal written by [json.dumps] gives the text that was written, so
    two titles never share a literal. *)
Theorem unescape_escape (s : string) :
  JsonText.unescape (Json.escape s) = s
  /\ forall s', Json.dumps_str s = Json.dumps_str s' -> s = s'.
Proof.
  assert (Hback : forall t, JsonText.unescape (Json.escape t) = t).
  { induction t as [|c r IH]; simpl; [reflexivity|].
    now rewrite unescape_escape_char, IH. }
  split; [apply Hback|].
  intros s' Heq. unfold Json.dumps_str in Heq. injection Heq as Heq.
  assert (Hesc : Json.escape s = Json.escape s').
  { revert Heq. generalize (Json.escape s') as b. generalize (Json.escape s) as a.
    induction a as [|x a IH]; intros [|y b] Heq; simpl in *;
      try reflexivity; try (destruct b; discriminate); try (destruct a; discriminate).
    injection Heq as -> Heq. f_equal. now apply IH. }
  now rewrite <- (Hback s), <- (Hback s'), Hesc.
Qed.

Lemma printable_append (a b : string) :
  JsonText.printable (a +:+ b) = (JsonText.printable a && JsonText.printable b)%bool.
Proof.
  induction a as [|c a IH]; simpl; [reflexivity|].
  now rewrite IH, andb_assoc.
Qed.

Lemma printable_escape (s : string) : JsonText.printable (Json.escape s) = true.
Proof.
  induction s as [|c r IH]; simpl; [reflexivity|].
  rewrite printable_append, IH.
  destruct c as [[] [] [] [] [] [] [] []]; reflexivity.
Qed.

Lemma printable_dumps_str (s : string) : JsonText.printable (Json.dumps_str s) = true.
Proof.
  unfold Json.dumps_str. cbn [JsonText.printable].
  now rewrite printable_append, printable_escape.
Qed.

Lemma printable_digits (s : string) :
  PyInt.all_digits s = true -> JsonText.printable s = true.
Proof.
  induction s as [|c r IH]; intros Hs; simpl in *; [reflexivity|].
  apply andb_prop in Hs as [Hc Hr]. rewrite (IH Hr).
  destruct c as [[] [] [] [] [] [] [] []]; try discriminate Hc; reflexivity.
Qed.

Lemma printable_str (z : Z) : JsonText.printable (Py.str z) = true.
Proof.
  unfold Py.str, NilZero.string_of_int, NilZero.string_of_uint.
  destruct (Z.to_int z) as [d|d]; destruct d; try reflexivity;
    try (apply printable_digits; apply (all_digits_uint (_ d)));
    cbn [JsonText.printable]; rewrite ?andb_true_l;
    apply printable_digits; apply (all_digits_uint (_ d)).
Qed.

Lemma printable_dumps_item (kv : string * Json.value) :
  JsonText.printable (Json.dumps_item kv) = true.
Proof.
  destruct kv as [k v]. unfold Json.dumps_item. cbn [fst snd].
  rewrite !printable_append, printable_dumps_str.
  destruct v; cbn [Json.dumps_value];
    [reflexivity | now rewrite printable_str | now rewrite printable_dumps_str].
Qed.

Lemma printable_join_items (d : list (string * Json.value)) :
  JsonText.printable (Json.join_items d) = true.
Proof.
  induction d as [|kv tl IH]; [reflexivity|].
  destruct tl as [|kv' tl]; [apply printable_dumps_item|].
  change (Json.join_items (kv :: kv' :: tl))
    with (Json.dumps_item kv +:+ ", " +:+ Json.join_items (kv' :: tl)).
  now rewrite !printable_append, printable_dumps_item, IH.
Qed.

Lemma printable_dumps (d : list (string * Json.value)) :
  JsonText.printable (Json.dumps d) = true.
Proof.
  unfold Json.dumps. now rewrite !printable_append, printable_join_items.
Qed.

Lemma printable_join_rows (l : list (list (string * Json.value))) :
  JsonText.printable (JsonText.join ", " (map Json.dumps l)) = true.
Proof.
  induction l as [|d tl IH]; [reflexivity|].
  destruct tl as [|d' tl]; [apply printable_dumps|].
  change (JsonText.join ", " (map Json.dumps (d :: d' :: tl)))
    with (Json.dumps d +:+ ", " +:+ JsonText.join ", " (map Json.dumps (d' :: tl))).
  now rewrite !printable_append, printable_dumps, IH.
Qed.

Lemma printable_dumps_rows (l : list (list (string * Json.value))) :
  JsonText.printable (JsonText.dumps_rows l) = true.
Proof.
  unfold JsonText.dumps_rows. now rewrite !printable_append, printable_join_rows.
Qed.

(** X8.  The four read views never change the world and never fail: each
    answers with status 200 and a body of printable ASCII characters,
    whatever text the rows hold. *)
Theorem read_views_answer_in_ascii (sid eid : Z) (w : World) :
  (exists b, get_shows w = (w, Ok {| status := 200; body := b |})
             /\ JsonText.printable b = true)
  /\ (exists b, get_show_by_id sid w = (w, Ok {| status := 200; body := b |})
                /\ JsonText.printable b = true)
  /\ (exists b, get_show_entries_by_show_id sid w = (w, Ok {| status := 200; body := b |})
                /\ JsonText.printable b = true)
  /\ (exists b, get_show_entry_by_entry_id sid eid w
                = (w, Ok {| status := 200; body := b |})
                /\ JsonText.printable b = true).
Proof.
  unfold get_shows, get_show_by_id, get_show_entries_by_show_id,
    get_show_entry_by_entry_id, fetch_show, fetch_entry, gets, ret, bind.
  cbv beta iota zeta.
  repeat split; eexists; (split; [reflexivity|]);
    first [apply printable_dumps_rows | apply printable_dumps].
Qed.


(** ** Relations the loops move along *)

Section Along.

Context (R : World -> World -> Prop).
Hypothesis R_refl : forall w, R w w.
Hypothesis R_trans : forall a b c, R a b -> R b c -> R a c.

Lemma along_ret {A} (a : A) : moves_along R (ret a).
Proof. intros w. apply R_refl. Qed.

Lemma along_raise {A} (e : exn) : moves_along R (@raise A e).
Proof. intros w. apply R_refl. Qed.

Lemma along_gets {A} (f : World -> A) : moves_along R (gets f).
Proof. intros w. apply R_refl. Qed.

Lemma along_bind {A B} (m : M A) (k : A -> M B) :
  moves_along R m -> (forall a, moves_along R (k a)) -> moves_along R (bind m k).
Proof.
  intros Hm Hk w. unfold bind. specialize (Hm w).
  destruct (m w) as [w' [a|e]]; simpl in *; [|exact Hm].
  apply R_trans with w'; [exact Hm | apply Hk].
Qed.

Lemma along_try_except {A} (m : M A) handler :
  moves_along R m -> (forall e h, handler e = Some h -> moves_along R h) ->
  moves_along R (try_except m handler).
Proof.
  intros Hm Hh w. unfold try_except. specialize (Hm w).
  destruct (m w) as [w' [a|e]]; simpl in *; [exact Hm|].
  destruct (handler e) as [h|] eqn:He; simpl; [|exact Hm].
  apply R_trans with w'; [exact Hm | apply (Hh e h He)].
Qed.

Lemma along_for_each {A} (f : A -> M unit) (l : list A) :
  (forall x, moves_along R (f x)) -> moves_along R (for_each f l).
Proof.
  intros Hf. induction l as [|x l IH]; simpl.
  - apply along_ret.
  - apply along_bind; [apply Hf | intros _; exact IH].
Qed.

End Along.

Ltac along_step :=
  lazymatch goal with
  | |- moves_along _ (bind _ _) => apply along_bind; [assumption | | intros ?]
  | |- moves_along _ (ret _) => apply along_ret; assumption
  | |- moves_along _ (raise _) => apply along_raise; assumption
  | |- moves_along _ (gets _) => apply along_gets; assumption
  | |- moves_along _ (for_each _ _) => apply along_for_each; [assumption | assumption | intros ?]
  | |- moves_along _ (match ?x with _ => _ end) => destruct x
  end.

(** ** The watcher and the file system *)

Lemma fs_conserved_refl (w : World) : fs_conserved w w.
Proof. split; [reflexivity | eauto]. Qed.

Lemma fs_conserved_trans (a b c : World) :
  fs_conserved a b -> fs_conserved b c -> fs_conserved a c.
Proof.
  intros [Hd1 Hf1] [Hd2 Hf2]. split.
  - intros p. now rewrite Hd2, Hd1.
  - intros p x Hp. destruct (Hf2 p x Hp) as [q Hq]. eauto.
Qed.

Lemma os_rename_conserves (src dst : Path.t) :
  moves_along fs_conserved (os_rename src dst).
Proof.
  intros w. unfold os_rename.
  destruct (fs w !! src) as [[c|]|] eqn:Hsrc; try apply fs_conserved_refl.
  assert (Hmoved : fs w !! dst <> Some Dir ->
                   fs_conserved w (set_fs (<[dst := File c]> (delete src (fs w))) w)).
  { intros Hdst. split; cbn [fs set_fs].
    - intros p. destruct (decide (dst = p)) as [<-|Hp].
      + rewrite lookup_insert_eq. split; [intros [=] | intros H; now destruct Hdst].
      + rewrite lookup_insert_ne by exact Hp.
        destruct (decide (src = p)) as [Heq|Hq].
        * subst p. rewrite lookup_delete_eq. split; [intros [=]|].
          intros H. discriminate (eq_trans (eq_sym Hsrc) H).
        * now rewrite lookup_delete_ne.
    - intros p x. destruct (decide (dst = p)) as [<-|Hp].
      + rewrite lookup_insert_eq. intros [= <-]. eauto.
      + rewrite lookup_insert_ne by exact Hp.
        destruct (decide (src = p)) as [Heq|Hq].
        * subst p. rewrite lookup_delete_eq. intros [=].
        * rewrite lookup_delete_ne by exact Hq. eauto. }
  destruct (fs w !! dst) as [[c'|]|]; cbn [fst];
    [apply Hmoved; discriminate | apply fs_conserved_refl | apply Hmoved; discriminate].
Qed.

Lemma check_show_entry_conserves (entry : ShowEntry) :
  moves_along fs_conserved (check_show_entry entry).
Proof.
  pose proof fs_conserved_refl as Hrefl. pose proof fs_conserved_trans as Htrans.
  unfold check_show_entry, is_file, deluge_get_torrent.
  apply along_bind; [assumption | |].
  - apply along_try_except; [assumption | repeat along_step |].
    intros e h He. destruct e; inversion He; subst. now apply along_raise.
  - intros info. apply along_bind; [assumption | |].
    + intros w. rewrite get_file_path_cases. apply Hrefl.
    + intros path. repeat along_step.
      unfold handle_rename, fetch_show, path_with_name.
      repeat along_step. apply os_rename_conserves.
Qed.

(** X9.  Whatever the watcher does, over any number of cycles and whatever
    their outcome, it neither creates nor removes a directory, and every
    file afterwards holds what some file held before. *)
Theorem watcher_conserves_the_file_system (cycles : nat) (w : World) :
  fs_conserved w (downloader_start cycles w).1.
Proof.
  pose proof fs_conserved_refl as Hrefl. pose proof fs_conserved_trans as Htrans.
  revert w. change (moves_along fs_conserved (downloader_start cycles)).
  induction cycles as [|n IH]; simpl; [now apply along_ret|].
  apply along_bind; [assumption | | intros _; exact IH].
  unfold check_show_entries, fetch_downloading. repeat along_step.
  apply check_show_entry_conserves.
Qed.

Lemma no_downloading_rows (l : list ShowEntry) :
  (forall e, In e l -> current_state e <> "downloading") ->
  List.filter (fun e => String.eqb (current_state e) "downloading") l = [].
Proof.
  induction l as [|x l IH]; intros H; simpl; [reflexivity|].
  destruct (String.eqb_spec (current_state x) "downloading") as [Hx|_].
  - destruct (H x); [now left | exact Hx].
  - apply IH. intros e He. apply H. now right.
Qed.

(** X10.  When no entry is in state [downloading], a watcher cycle does
    nothing, and so does any number of cycles: an entry in any other state
    is never looked at again. *)
Theorem watcher_idles_without_downloading (cycles : nat) (w : World) :
  (forall e, In e (entries w) -> current_state e <> "downloading") ->
  downloader_start cycles w = (w, Ok tt).
Proof.
  intros Hnone.
  assert (Hcycle : check_show_entries w = (w, Ok tt)).
  { unfold check_show_entries, fetch_downloading, gets, bind.
    now rewrite no_downloading_rows. }
  induction cycles as [|n IH]; simpl; [reflexivity|].
  unfold bind. now rewrite Hcycle.
Qed.

Lemma check_show_entry_no_dir (entry : ShowEntry) (info : TorrentInfo) (w : World) :
  torrents w !! torrent_hash entry = Some info ->
  fs w !! watched_dir <> Some Dir ->
  check_show_entry entry w
  = (w, Raise (SavePathDoesNotExist
                 "'C:/Users/Tyler/Documents/GitHub/Tsundoku/test/' could not be read")).
Proof.
  intros Htorrent Hdir.
  unfold check_show_entry, deluge_get_torrent, try_except, gets, bind.
  cbv beta iota. rewrite Htorrent. unfold ret at 1. cbv beta iota.
  rewrite get_file_path_cases.
  destruct (fs w !! watched_dir) as [[c|]|]; try reflexivity. contradiction.
Qed.

(** X11.  When the fixed directory is missing, the check of an entry whose
    handle the client knows raises [SavePathDoesNotExist] and changes
    nothing, wherever the client says it saved the download. *)
Theorem missing_directory_is_a_fault (entry : ShowEntry) (info : TorrentInfo) (w : World) :
  torrents w !! torrent_hash entry = Some info ->
  fs w !! watched_dir <> Some Dir ->
  check_show_entry entry w
  = (w, Raise (SavePathDoesNotExist
                 "'C:/Users/Tyler/Documents/GitHub/Tsundoku/test/' could not be read")).
Proof. apply check_show_entry_no_dir. Qed.

(** X12.  A handle the client has lost stops the watcher: the cycle ends at
    that entry with [EntryNotInDeluge], the entries after it are not
    checked, and the fault leaves [Downloader.start], so no later cycle
    runs either. *)
Theorem lost_handle_stops_the_watcher
    (before after : list ShowEntry) (lost : ShowEntry) (cycles : nat) (w w1 : World) :
  List.filter (fun e => String.eqb (current_state e) "downloading") (entries w)
  = (before ++ lost :: after)%list ->
  for_each check_show_entry before w = (w1, Ok tt) ->
  torrents w !! torrent_hash lost = None ->
  check_show_entries w = (w1, Raise (EntryNotInDeluge (missing_from_deluge lost)))
  /\ downloader_start (S cycles) w
     = (w1, Raise (EntryNotInDeluge (missing_from_deluge lost))).
Proof.
  intros Hrows Hbefore Hlost.
  assert (Hcycle : check_show_entries w
                   = (w1, Raise (EntryNotInDeluge (missing_from_deluge lost)))).
  { unfold check_show_entries, fetch_downloading, gets. unfold bind at 1.
    rewrite Hrows, for_each_app. unfold bind at 1. rewrite Hbefore.
    cbn [for_each]. unfold bind at 1.
    rewrite check_show_entry_unknown; [reflexivity|].
    pose proof (keeps_for_each torrents check_show_entry before
                  (fun x => check_show_entry_keeps torrents x (fun _ _ => eq_refl)) w)
      as Hkeep.
    rewrite Hbefore in Hkeep. simpl in Hkeep. now rewrite Hkeep. }
  split; [exact Hcycle|]. cbn [downloader_start]. unfold bind at 1. now rewrite Hcycle.
Qed.

Lemma handle_rename_fault (entry : ShowEntry) (path : Path.t) (e : exn) (w : World) :
  (handle_rename entry path w).2 = Raise e -> (handle_rename entry path w).1 = w.
Proof.
  unfold handle_rename, fetch_show, path_with_name, os_rename, gets, bind, ret, raise.
  cbv beta iota zeta.
  repeat case_match; simpl; intros; simplify_eq; reflexivity.
Qed.

(** X13.  A check that ends in a fault has changed nothing: no file is
    renamed by a check that raises, whatever the fault. *)
Theorem faulty_check_changes_nothing (entry : ShowEntry) (e : exn) (w : World) :
  (check_show_entry entry w).2 = Raise e -> (check_show_entry entry w).1 = w.
Proof.
  destruct (torrents w !! torrent_hash entry) as [info|] eqn:Htorrent;
    [|now rewrite check_show_entry_unknown].
  destruct (fs w !! watched_dir) as [[c|]|] eqn:Hdir;
    try (rewrite (check_show_entry_no_dir entry info w Htorrent)
           by (rewrite Hdir; discriminate); reflexivity).
  destruct (fs w !! Path.join watched_dir (info_name info)) as [[c|]|] eqn:Hfile;
    try (rewrite (check_show_entry_skip entry info w Htorrent Hdir)
           by (intros c'; rewrite Hfile; discriminate); intros [=]).
  assert (Hrun : check_show_entry entry w
                 = let (w', r) := handle_rename entry
                                    (Path.join watched_dir (info_name info)) w in
                   match r with
                   | Ok _ => (w', Ok tt)
                   | Raise x => (w', Raise x)
                   end).
  { unfold check_show_entry, deluge_get_torrent, try_except, gets, bind.
    cbv beta iota. rewrite Htorrent. unfold ret at 1. cbv beta iota.
    rewrite get_file_path_run by assumption. unfold is_file, gets.
    rewrite Hfile. cbv beta iota. change (negb true) with false. reflexivity. }
  rewrite Hrun. clear Hrun.
  pose proof (handle_rename_fault entry (Path.join watched_dir (info_name info)) e w)
    as H.
  destruct (handle_rename entry (Path.join watched_dir (info_name info)) w)
    as [w' [p|x]]; simpl in *; [intros [=] | intros [= ->]; now apply H].
Qed.

(** X14.  An entry whose show has no row cannot be completed: once its
    file has arrived, every check of it raises [TypeError] and leaves the
    file where it is. *)
Theorem entry_of_a_missing_show_faults
    (entry : ShowEntry) (info : TorrentInfo) (content : string) (w : World) :
  torrents w !! torrent_hash entry = Some info ->
  fs w !! watched_dir = Some Dir ->
  fs w !! Path.join watched_dir (info_name info) = Some (File content) ->
  (forall s, In s (shows w) -> s_id s <> show_id entry) ->
  check_show_entry entry w = (w, Raise TypeError).
Proof.
  intros Htorrent Hdir Hfile Hshow.
  assert (Hfind : List.find (fun s => (s_id s =? show_id entry)%Z) (shows w) = None).
  { destruct (List.find _ (shows w)) as [s|] eqn:Hfind; [|reflexivity].
    apply find_some in Hfind as [Hin Heq]. apply Z.eqb_eq in Heq.
    now destruct (Hshow s Hin). }
  unfold check_show_entry, deluge_get_torrent, try_except, gets, bind.
  cbv beta iota. rewrite Htorrent. unfold ret at 1. cbv beta iota.
  rewrite get_file_path_run by assumption. unfold is_file, gets.
  rewrite Hfile. cbv beta iota. change (negb true) with false. cbv beta iota.
  unfold handle_rename, fetch_show, gets, bind. cbv beta iota zeta.
  now rewrite Hfind.
Qed.

(** X15.  The rename does not look whether the new name is taken: when
    another file already has it, that file is replaced by the renamed one
    and the file system holds one file less. *)
Theorem rename_replaces_a_file_of_that_name
    (entry : ShowEntry) (info : TorrentInfo) (s : Show) (content other : string)
    (new_path : Path.t) (w : World) :
  torrents w !! torrent_hash entry = Some info ->
  fs w !! watched_dir = Some Dir ->
  fs w !! Path.join watched_dir (info_name info) = Some (File content) ->
  List.find (fun s => (s_id s =? show_id entry)%Z) (shows w) = Some s ->
  Path.with_name (Path.join watched_dir (info_name info))
    (Py.re_sub (formatting_re s entry) (file_fmt s)
     +:+ Path.suffix (Path.join watched_dir (info_name info)))
  = Some new_path ->
  new_path <> Path.join watched_dir (info_name info) ->
  fs w !! new_path = Some (File other) ->
  (check_show_entry entry w).2 = Ok tt
  /\ fs (check_show_entry entry w).1 !! new_path = Some (File content)
  /\ fs (check_show_entry entry w).1 !! Path.join watched_dir (info_name info) = None
  /\ S (size (fs (check_show_entry entry w).1)) = size (fs w).
Proof.
  intros Htorrent Hdir Hfile Hshow Hname Hne Hother.
  rewrite (check_show_entry_run entry info s content new_path w) by
    (try assumption; rewrite Hother; discriminate).
  simpl. split; [reflexivity|]. split; [apply lookup_insert_eq|]. split.
  - rewrite lookup_insert_ne by exact Hne. apply lookup_delete_eq.
  - rewrite map_size_insert_Some.
    + rewrite <- (insert_delete_id (fs w) _ _ Hfile) at 2.
      rewrite map_size_insert_None by apply lookup_delete_eq. reflexivity.
    + exists (File other). rewrite lookup_delete_ne by congruence. exact Hother.
Qed.


Section MoreProperties.

Context {X : Externals}.

(** ** The write view *)

Lemma form_get_present (arguments : Form) (key : string) (w : World) :
  key ∈ form_keys arguments ->
  exists v, form_get arguments key w = (w, Ok v).
Proof.
  unfold form_keys, form_get. rewrite elem_of_list_to_set, list_elem_of_In.
  intros Hin. apply in_map_iff in Hin as ([k v] & Hk & Hin). simpl in Hk. subst k.
  destruct (List.find (fun kv => String.eqb kv.1 key) arguments) as [kv|] eqn:Hfind.
  - now exists kv.2.
  - apply (find_none _ _ Hfind) in Hin. simpl in Hin.
    now rewrite String.eqb_refl in Hin.
Qed.

(** X16.  A request the write view refuses changes nothing.  A form whose
    fields are not exactly [episode] and [magnet], and a form whose first
    [episode] value is ASCII text of at most 4300 characters that is no
    integer, are both answered with status 400 and the reason, and the
    world is what it was. *)
Theorem refused_request_changes_nothing
    (show_id : Z) (arguments : Form) (text : string) (w : World) :
  (form_keys arguments <> {[ "episode"; "magnet" ]} ->
   post_show_entries show_id arguments w
   = (w, Ok {| status := 400;
               body := JsonText.dumps_answers
                         [("success", JsonText.Bool false);
                          ("error", JsonText.Str
                             "too many arguments or missing required argument")] |}))
  /\ (form_keys arguments = {[ "episode"; "magnet" ]} ->
      form_get arguments "episode" w = (w, Ok text) ->
      PyInt.is_ascii text = true ->
      (String.length text <= PyInt.max_str_digits)%nat ->
      PyInt.int text = None ->
      post_show_entries show_id arguments w
      = (w, Ok {| status := 400;
                  body := JsonText.dumps_answers
                            [("success", JsonText.Bool false);
                             ("error", JsonText.Str "episode argument must be int")] |})).
Proof.
  unfold post_show_entries. cbv zeta. split.
  - intros Hkeys. now rewrite bool_decide_eq_true_2.
  - intros Hkeys Hepisode _ _ Hint.
    rewrite bool_decide_eq_false_2 by (intros H; now apply H).
    unfold bind at 1. rewrite Hepisode. now rewrite Hint.
Qed.

(** X17.  A well-formed request for a show of the table is carried out:
    with exactly the two fields and, as first [episode] value, ASCII text
    that reads as an integer, the view hands the first [magnet] value to
    the torrent client, adds one row with the show id of the URL, that
    episode and the client's handle, and answers with status 200. *)
Theorem accepted_request_adds_a_row
    (show_id' : Z) (arguments : Form) (text : string) (ep : Z) (w : World) :
  (exists s, In s (shows w) /\ s_id s = show_id') ->
  form_keys arguments = {[ "episode"; "magnet" ]} ->
  form_get arguments "episode" w = (w, Ok text) ->
  PyInt.is_ascii text = true ->
  PyInt.int text = Some ep ->
  exists magnet row,
    form_get arguments "magnet" w = (w, Ok magnet)
    /\ (post_show_entries show_id' arguments w).2
       = Ok {| status := 200;
               body := JsonText.dumps_answers [("success", JsonText.Bool true)] |}
    /\ entries (post_show_entries show_id' arguments w).1 = (entries w ++ [row])%list
    /\ show_id row = show_id' /\ episode row = ep
    /\ torrent_hash row = info_hash magnet
    /\ torrents (post_show_entries show_id' arguments w).1 !! info_hash magnet
       = Some (added_info magnet).
Proof.
  intros _ Hkeys Hepisode _ Hint.
  destruct (form_get_present arguments "magnet" w) as [magnet Hmagnet].
  { rewrite Hkeys. set_solver. }
  set (row := {| e_id := next_id (entries w); show_id := show_id'; episode := ep;
                 torrent_hash := info_hash magnet; current_state := "downloading" |}).
  assert (Hrun : post_show_entries show_id' arguments w
                 = (set_entries (entries w ++ [row])
                      (set_torrents (<[info_hash magnet := added_info magnet]> (torrents w)) w),
                    Ok {| status := 200;
                          body := JsonText.dumps_answers
                                    [("success", JsonText.Bool true)] |})).
  { unfold post_show_entries. cbv zeta.
    rewrite bool_decide_eq_false_2 by (intros H; now apply H).
    unfold bind at 1. rewrite Hepisode. cbv beta iota. rewrite Hint.
    unfold bind at 1. rewrite Hmagnet. reflexivity. }
  exists magnet, row. rewrite Hrun. split; [exact Hmagnet|].
  cbn [fst snd entries torrents set_entries set_torrents].
  repeat split. apply lookup_insert_eq.
Qed.

(** ** Items of a feed *)

(** X18.  An item the ignore predicate rejects is dropped at once: nothing
    is read from it, nothing is scored or printed, and the world is as
    before, even when the item has no title. *)
Theorem ignored_item_is_dropped
    (item : Item) (p : Parser) (f : Item -> bool) (w : World) :
  current_parser w = Some p -> ignore_logic p = Some f -> f item = false ->
  check_item item w = (w, Ok tt).
Proof.
  intros Hp Hf Hitem. unfold check_item, hook, gets. unfold bind at 1.
  rewrite Hp. simpl. now rewrite Hf, Hitem.
Qed.

(** X19.  An item without a title, from a source that has no file-name
    hook and does not ignore it, raises [KeyError] for [title]; the
    check of the feed stops there and the items after it are not looked at. *)
Theorem item_without_title_stops_the_feed
    (item : Item) (rest : list Item) (p : Parser) (w : World) :
  current_parser w = Some p ->
  match ignore_logic p with Some f => f item = true | None => True end ->
  get_file_name p = None ->
  item !! "title" = None ->
  check_feed (item :: rest) w = (w, Raise (KeyError "title")).
Proof.
  intros Hp Hignore Hname Htitle. unfold check_feed. cbn [for_each].
  unfold bind at 1. now rewrite (check_item_without_title item p w).
Qed.

(** ** The best match *)

Lemma max_by_score_first (best : string * Z) (l : list (string * Z)) :
  exists l1 l2,
    best :: l = (l1 ++ max_by_score best l :: l2)%list
    /\ (forall x, In x l1 -> (x.2 < (max_by_score best l).2)%Z)
    /\ (forall x, In x l2 -> (x.2 <= (max_by_score best l).2)%Z).
Proof.
  revert best. induction l as [|c l IH]; intros best.
  - exists [], []. simpl. repeat split; intros x [].
  - cbn [max_by_score].
    destruct (IH (if (best.2 <? c.2)%Z then c else best)) as (l1 & l2 & Hsplit & Hlt & Hle).
    set (m := max_by_score (if (best.2 <? c.2)%Z then c else best) l) in *.
    destruct (Z.ltb_spec best.2 c.2) as [Hbc|Hbc].
    + exists (best :: l1), l2. split; [simpl; now rewrite <- Hsplit|]. split; [|exact Hle].
      intros x [<-|Hx]; [|now apply Hlt].
      destruct l1 as [|y l1]; simpl in Hsplit; injection Hsplit as Hc _.
      * now rewrite <- Hc.
      * assert (y.2 < m.2)%Z by (apply Hlt; now left). subst y. lia.
    + destruct l1 as [|y l1]; simpl in Hsplit; injection Hsplit as Hb Hl.
      * exists [], (c :: l). split; [simpl; now rewrite <- Hb|].
        split; [intros x []|].
        intros x [<-|Hx]; [rewrite <- Hb; lia|]. apply Hle. rewrite <- Hl. exact Hx.
      * exists (best :: c :: l1), l2. split; [simpl; now rewrite Hl|]. split; [|exact Hle].
        assert (best.2 < m.2)%Z by (rewrite Hb; apply Hlt; now left).
        intros x [<-|[<-|Hx]]; [assumption | lia |]. apply Hlt. now right.
Qed.

Lemma extractOne_first_best (query : string) (t : string) (l : list string) (w : World) :
  exists title t1 t2,
    (extractOne query (t :: l) w).2 = Ok (Some (title, score query title))
    /\ t :: l = (t1 ++ title :: t2)%list
    /\ (forall x, In x t1 -> (score query x < score query title)%Z)
    /\ (forall x, In x t2 -> (score query x <= score query title)%Z).
Proof.
  unfold extractOne, bind, modify, ret. cbn [snd map].
  destruct (max_by_score_first (t, score query t) (map (fun c => (c, score query c)) l))
    as (l1 & l2 & Hsplit & Hlt & Hle).
  set (m := max_by_score (t, score query t) (map (fun c => (c, score query c)) l)) in *.
  change ((t, score query t) :: map (fun c => (c, score query c)) l)
    with (map (fun c => (c, score query c)) (t :: l)) in Hsplit.
  apply map_eq_app in Hsplit as (t1 & r & Htl & Ht1 & Hr).
  apply map_eq_cons in Hr as (title & t2 & Hr & Hm & Ht2).
  exists title, t1, t2. subst r. clearbody m. subst m. repeat split.
  - exact Htl.
  - intros x Hx. apply (Hlt (x, score query x)). rewrite <- Ht1.
    exact (in_map (fun c => (c, score query c)) t1 x Hx).
  - intros x Hx. apply (Hle (x, score query x)). rewrite <- Ht2.
    exact (in_map (fun c => (c, score query c)) t2 x Hx).
Qed.

(** X20.  The title the match step returns is the best one: no title of
    the table scores higher, and those listed before it score strictly
    lower, so among equal scores the first title wins. *)
Theorem match_is_first_best (show_name : string) (episode : Z) (w : World) :
  forall title, (check_item_for_match show_name episode w).2 = Ok (Some title) ->
  exists t1 t2,
    map search_title (shows w) = (t1 ++ title :: t2)%list
    /\ (forall x, In x t1 -> (score show_name x < score show_name title)%Z)
    /\ (forall x, In x t2 -> (score show_name x <= score show_name title)%Z).
Proof.
  intros title. unfold check_item_for_match, fetch_search_titles, gets.
  unfold bind at 1. cbv beta iota.
  destruct (map search_title (shows w)) as [|t l]; [discriminate|].
  destruct (extractOne_first_best show_name t l w) as (best & t1 & t2 & Hrun & Hsplit & H).
  unfold bind. destruct (extractOne show_name (t :: l) w) as [w' r]. simpl in Hrun.
  subst r. cbn [fst snd].
  destruct (90 <=? score show_name best)%Z; simpl; intros [= <-]. eauto.
Qed.

(** X21.  A wanted show is never missed: when some title of the table
    scores 90 or more against the candidate, the match step returns a
    title. *)
Theorem wanted_title_is_matched
    (show_name wanted : string) (episode : Z) (w : World) :
  In wanted (map search_title (shows w)) ->
  (90 <= score show_name wanted)%Z ->
  exists title, (check_item_for_match show_name episode w).2 = Ok (Some title).
Proof.
  intros Hin Hscore. unfold check_item_for_match, fetch_search_titles, gets.
  unfold bind at 1. cbv beta iota.
  destruct (map search_title (shows w)) as [|t l]; [contradiction|].
  destruct (extractOne_first_best show_name t l w)
    as (best & t1 & t2 & Hrun & Hsplit & Hlt & Hle).
  unfold bind. destruct (extractOne show_name (t :: l) w) as [w' r]. simpl in Hrun.
  subst r. cbn [fst snd].
  assert (Hbest : (90 <= score show_name best)%Z).
  { rewrite Hsplit in Hin. apply in_app_or in Hin as [Hin|[<-|Hin]].
    - specialize (Hlt wanted Hin). lia.
    - exact Hscore.
    - specialize (Hle wanted Hin). lia. }
  apply Z.leb_le in Hbest. rewrite Hbest. now exists best.
Qed.

(** ** Standard output *)

Lemma check_item_prints_at_most_once (item : Item) (w : World) :
  exists lines,
    stdout (check_item item w).1 = (stdout w ++ lines)%list /\ (length lines <= 1)%nat.
Proof.
  assert (Hsame : forall w' : World, stdout w' = stdout w ->
            exists lines, stdout w' = (stdout w ++ lines)%list /\ (length lines <= 1)%nat).
  { intros w' ->. exists []. split; [now rewrite app_nil_r | simpl; lia]. }
  unfold check_item, get_torrent_link, hook, getitem, the_parser, deluge_get_magnet,
    check_item_for_match, fetch_search_titles, extractOne, print, modify, gets, bind,
    ret, raise.
  cbv beta iota zeta.
  repeat case_match; simplify_eq; cbn [fst snd stdout set_stdout set_scored];
    try (apply Hsame; reflexivity);
    eexists (cons _ nil); (split; [reflexivity | simpl; lia]).
Qed.

(** X22.  Checking a feed only adds to standard output, and at most one
    line for each item of the feed. *)
Theorem check_feed_prints_at_most_one_line_per_item (feed : list Item) (w : World) :
  exists lines,
    stdout (check_feed feed w).1 = (stdout w ++ lines)%list
    /\ (length lines <= length feed)%nat.
Proof.
  unfold check_feed. revert w. induction feed as [|item feed IH]; intros w.
  - exists []. simpl. split; [now rewrite app_nil_r | lia].
  - cbn [for_each]. unfold bind.
    destruct (check_item_prints_at_most_once item w) as (l1 & Hl1 & Hn1).
    destruct (check_item item w) as [w1 [[]|e]]; cbn [fst] in *.
    + destruct (IH w1) as (l2 & Hl2 & Hn2). exists (l1 ++ l2)%list.
      rewrite Hl2, Hl1, length_app, app_assoc. split; [reflexivity | simpl; lia].
    + exists l1. split; [exact Hl1 | simpl; lia].
Qed.

End MoreProperties.


(** ** The two loops side by side *)

Section Frames.

Context (u : World -> World).

Lemma frames_ret {A} (a : A) : frames u (ret a).
Proof. now intros w. Qed.

Lemma frames_raise {A} (e : exn) : frames u (@raise A e).
Proof. now intros w. Qed.

Lemma frames_gets {A} (f : World -> A) :
  (forall w, f (u w) = f w) -> frames u (gets f).
Proof. intros H w. unfold gets. now rewrite H. Qed.

Lemma frames_modify (f : World -> World) :
  (forall w, f (u w) = u (f w)) -> frames u (modify f).
Proof. intros H w. unfold modify. now rewrite H. Qed.

Lemma frames_bind {A B} (m : M A) (k : A -> M B) :
  frames u m -> (forall a, frames u (k a)) -> frames u (bind m k).
Proof.
  intros Hm Hk w. unfold bind. rewrite Hm.
  destruct (m w) as [w' [a|e]]; simpl; [apply Hk | reflexivity].
Qed.

Lemma frames_try_except {A} (m : M A) handler :
  frames u m -> (forall e h, handler e = Some h -> frames u h) ->
  frames u (try_except m handler).
Proof.
  intros Hm Hh w. unfold try_except. rewrite Hm.
  destruct (m w) as [w' [a|e]]; simpl; [reflexivity|].
  destruct (handler e) as [h|] eqn:He; [apply (Hh e h He) | reflexivity].
Qed.

Lemma frames_for_each {A} (f : A -> M unit) (l : list A) :
  (forall x, frames u (f x)) -> frames u (for_each f l).
Proof.
  intros Hf. induction l as [|x l IH]; simpl.
  - apply frames_ret.
  - apply frames_bind; [apply Hf | intros _; exact IH].
Qed.

End Frames.

Ltac frames_step :=
  lazymatch goal with
  | |- frames _ (bind _ _) => apply frames_bind; [|intros ?]
  | |- frames _ (ret _) => apply frames_ret
  | |- frames _ (raise _) => apply frames_raise
  | |- frames _ (gets _) => apply frames_gets; intros ?; reflexivity
  | |- frames _ (modify _) => apply frames_modify; intros ?; reflexivity
  | |- frames _ (for_each _ _) => apply frames_for_each; intros ?
  | |- frames _ (match ?x with _ => _ end) => destruct x
  end.

Lemma world_differs_in_fs (w w' : World) :
  shows w' = shows w -> entries w' = entries w -> torrents w' = torrents w ->
  rss_parsers w' = rss_parsers w -> current_parser w' = current_parser w ->
  stdout w' = stdout w -> scored w' = scored w ->
  w' = set_fs (fs w') w.
Proof. destruct w, w'; simpl; intros; subst; reflexivity. Qed.

Lemma world_differs_in_marks (w w' : World) :
  shows w' = shows w -> entries w' = entries w -> torrents w' = torrents w ->
  fs w' = fs w -> rss_parsers w' = rss_parsers w ->
  w' = poller_marks (current_parser w') (scored w') (stdout w') w.
Proof. destruct w, w'; simpl; intros; subst; reflexivity. Qed.

Lemma watcher_cycle_changes_fs_only (w : World) :
  (check_show_entries w).1 = set_fs (fs (check_show_entries w).1) w.
Proof.
  apply world_differs_in_fs.
  - now apply (check_show_entries_keeps shows).
  - now apply (check_show_entries_keeps entries).
  - now apply (check_show_entries_keeps torrents).
  - now apply (check_show_entries_keeps rss_parsers).
  - now apply (check_show_entries_keeps current_parser).
  - now apply (check_show_entries_keeps stdout).
  - now apply (check_show_entries_keeps scored).
Qed.

Lemma os_rename_frames (p : option Parser) (s : list (string * string))
    (o : list string) (src dst : Path.t) :
  frames (poller_marks p s o) (os_rename src dst).
Proof.
  intros w. unfold os_rename.
  cbn [fs poller_marks set_stdout set_scored set_current_parser].
  destruct (fs w !! src) as [[c|]|]; try reflexivity.
  now destruct (fs w !! dst) as [[c'|]|].
Qed.

Lemma watcher_cycle_frames (p : option Parser) (s : list (string * string))
    (o : list string) :
  frames (poller_marks p s o) check_show_entries.
Proof.
  unfold check_show_entries, fetch_downloading. repeat frames_step.
  unfold check_show_entry, deluge_get_torrent, is_file.
  apply frames_bind.
  - apply frames_try_except; [repeat frames_step|].
    intros e h He. destruct e; inversion He; subst. apply frames_raise.
  - intros info. apply frames_bind.
    + intros w. now rewrite !get_file_path_cases.
    + intros path. repeat frames_step.
      unfold handle_rename, fetch_show, path_with_name. repeat frames_step.
      apply os_rename_frames.
Qed.

Section TwoLoops.

Context {X : Externals}.

Lemma poll_cycle_keeps {B} (proj : World -> B) :
  (forall l w, proj (set_scored l w) = proj w) ->
  (forall o w, proj (set_stdout o w) = proj w) ->
  (forall p w, proj (set_current_parser p w) = proj w) ->
  keeps proj poll_cycle.
Proof.
  intros Hs Ho Hp. unfold poll_cycle. keeps_auto. now apply poll_parser_keeps.
Qed.

Lemma poll_cycle_changes_marks_only (w : World) :
  exists p s o, (poll_cycle w).1 = poller_marks p s o w.
Proof.
  eexists _, _, _. apply world_differs_in_marks.
  - now apply (poll_cycle_keeps shows).
  - now apply (poll_cycle_keeps entries).
  - now apply (poll_cycle_keeps torrents).
  - now apply (poll_cycle_keeps fs).
  - now apply (poll_cycle_keeps rss_parsers).
Qed.

Lemma poll_cycle_frames (f : gmap (list string) node) : frames (set_fs f) poll_cycle.
Proof.
  unfold poll_cycle. repeat frames_step.
  unfold poll_parser, get_feed_from_parser, the_parser, check_feed.
  apply frames_bind; [frames_step | intros _].
  apply frames_bind.
  - repeat frames_step. now intros w.
  - intros feed. apply frames_for_each. intros item.
    unfold check_item, get_torrent_link, hook, getitem, the_parser, deluge_get_magnet,
      check_item_for_match, fetch_search_titles, extractOne, print.
    repeat frames_step.
Qed.

(** X23.  A watcher cycle and a poll cycle do not get in each other's way:
    when each of them ends normally, running the watcher first and the
    poller second leaves the same world and the same outcome as running
    the poller first and the watcher second. *)
Theorem watcher_and_poller_cycles_commute (w wa wb : World) :
  check_show_entries w = (wa, Ok tt) ->
  poll_cycle w = (wb, Ok tt) ->
  (check_show_entries ;; poll_cycle) w = (poll_cycle ;; check_show_entries) w.
Proof.
  intros Ha Hb.
  pose proof (watcher_cycle_changes_fs_only w) as Hwa.
  rewrite Ha in Hwa. cbn [fst] in Hwa.
  remember (fs wa) as fa eqn:Hfa. clear Hfa.
  destruct (poll_cycle_changes_marks_only w) as (p & s & o & Hwb).
  rewrite Hb in Hwb. cbn [fst] in Hwb.
  pose proof (poll_cycle_frames fa w) as H1. rewrite <- Hwa, Hb in H1.
  pose proof (watcher_cycle_frames p s o w) as H2. rewrite <- Hwb, Ha in H2.
  unfold bind. rewrite Ha, Hb, H1, H2. cbn [fst snd]. now subst wa wb.
Qed.

End TwoLoops.

(** * The program on the household set-up *)

#[local] Existing Instance Fixture.externals.

(** ** Formats of the design document *)

Example format_s00e00 :
  Py.re_sub (formatting_re Fixture.one_piece Fixture.episode5) "{s00e00}" = "S01E05".
Proof. reflexivity. Qed.

Example format_sxe :
  Py.re_sub (formatting_re Fixture.one_piece Fixture.episode5) "{sxe}" = "1x05".
Proof. reflexivity. Qed.

Example str_negative : Py.str (-12) = "-12".
Proof. reflexivity. Qed.

Example zfill_keeps_long : Py.zfill 2 "123" = "123".
Proof. reflexivity. Qed.

Example zfill_after_sign : Py.zfill 3 "-5" = "-05".
Proof. reflexivity. Qed.

Example re_sub_leftmost :
  Py.re_sub (fun w => "<" +:+ w +:+ ">") "a{b_1}c{}{d e}{f}" = "a<b_1>c{}{d e}<f>".
Proof. reflexivity. Qed.

Example suffix_last_only : Path.suffix ["/"; "a"; "x.tar.gz"] = ".gz".
Proof. reflexivity. Qed.

Example suffix_dotfile : Path.suffix ["/"; "a"; ".bashrc"] = "".
Proof. reflexivity. Qed.

Example watched_dir_parsed :
  Path.of_string (replace_backslash "C:\Users\Tyler\Documents\GitHub\Tsundoku\test\")
  = watched_dir
  /\ replace_backslash "C:\Users\Tyler\Documents\GitHub\Tsundoku\test\" = watched_location.
Proof. split; reflexivity. Qed.

(** ** C1: a wanted item is printed, not downloaded *)

(** The source lists episode 5 of a wanted show, no hook rejects it, and
    the cycle ends normally with one printed line and an empty table.
    [begin_handling] on the same triple adds the row. *)
Example poll_cycle_prints_wanted_item :
  poll_cycle (Fixture.fresh [Fixture.source "B"])
  = (set_scored [("One Piece", "One Piece")]
       (set_stdout ["One Piece 5"]
          (set_current_parser (Some (Fixture.source "B"))
             (Fixture.fresh [Fixture.source "B"]))),
     Ok tt)
  /\ entries (poll_cycle (Fixture.fresh [Fixture.source "B"])).1 = []
  /\ entries (begin_handling 1 5 "magnet:?xt=op5" (Fixture.fresh [Fixture.source "B"])).1
     = [{| e_id := 1; show_id := 1; episode := 5;
           torrent_hash := "hash of magnet:?xt=op5";
           current_state := "downloading" |}].
Proof. repeat split. Qed.

(** ** C3: a tracked episode is matched again *)

Example tracked_episode_matches_again :
  In Fixture.episode5 (entries (Fixture.arrived Fixture.one_piece))
  /\ (check_item_for_match "One Piece" 5 (Fixture.arrived Fixture.one_piece)).2
     = Ok (Some "One Piece")
  /\ map (fun e => (show_id e, episode e))
       (entries (begin_handling 1 5 "magnet:?xt=op5"
                   (Fixture.arrived Fixture.one_piece)).1)
     = [(1, 5); (1, 5)].
Proof. repeat split. now left. Qed.

(** ** C4: the reported save path is not used *)

Example reported_save_path_unused :
  (get_file_path "/downloads" "op5.mkv" (Fixture.arrived Fixture.one_piece)).2
  = Ok ["C:"; "Users"; "Tyler"; "Documents"; "GitHub"; "Tsundoku"; "test"; "op5.mkv"]
  /\ Path.join (Path.of_string "/downloads") "op5.mkv" = ["/"; "downloads"; "op5.mkv"].
Proof. split; reflexivity. Qed.

(** ** C2: the state after a completed download *)

(** C2, counterexample.  Episode 5 is in state [downloading]; the torrent
    client reports the save path [C:/Users/Tyler/Documents/GitHub/Tsundoku/test]
    and the name [op5.mkv], and the file is there.  One watcher cycle ends
    normally and moves the file to its new name; the entry is still in
    state [downloading], not [completed]. *)
Lemma watcher_cycle_leaves_downloading :
  map current_state (entries (Fixture.arrived_in_place Fixture.one_piece))
  = ["downloading"]
  /\ torrents (Fixture.arrived_in_place Fixture.one_piece) !! "h5"
     = Some {| info_save_path := "C:/Users/Tyler/Documents/GitHub/Tsundoku/test";
               info_name := "op5.mkv" |}
  /\ fs (Fixture.arrived_in_place Fixture.one_piece)
       !! Path.join (Path.of_string "C:/Users/Tyler/Documents/GitHub/Tsundoku/test")
            "op5.mkv"
     = Some (File "video")
  /\ (check_show_entries (Fixture.arrived_in_place Fixture.one_piece)).2 = Ok tt
  /\ fs (check_show_entries (Fixture.arrived_in_place Fixture.one_piece)).1
       !! Path.join (Path.of_string "C:/Users/Tyler/Documents/GitHub/Tsundoku/test")
            "op5.mkv"
     = None
  /\ fs (check_show_entries (Fixture.arrived_in_place Fixture.one_piece)).1
       !! Path.join (Path.of_string "C:/Users/Tyler/Documents/GitHub/Tsundoku/test")
            "One Piece - S01E05.mkv"
     = Some (File "video")
  /\ map current_state
       (entries (check_show_entries (Fixture.arrived_in_place Fixture.one_piece)).1)
     = ["downloading"]
  /\ "downloading" <> "completed".
Proof. vm_compute. repeat split. discriminate. Qed.

(** The amended C2 on the set-up above. *)
Lemma watcher_renames_and_keeps_downloading_witness :
  exists w',
    check_show_entry Fixture.episode5 (Fixture.arrived_in_place Fixture.one_piece)
    = (w', Ok tt)
    /\ fs w' !! (Fixture.test_dir ++ ["One Piece - S01E05.mkv"])%list
       = Some (File "video")
    /\ map current_state (entries w') = ["downloading"]
    /\ check_show_entry Fixture.episode5 w' = (w', Ok tt).
Proof.
  destruct (watcher_renames_and_keeps_downloading
              Fixture.episode5
              {| info_save_path := "C:/Users/Tyler/Documents/GitHub/Tsundoku/test";
                 info_name := "op5.mkv" |}
              Fixture.one_piece "video"
              (Fixture.test_dir ++ ["One Piece - S01E05.mkv"])%list
              (Fixture.arrived_in_place Fixture.one_piece))
    as (w' & Hrun & Hfs & Hentries & _ & Hagain & _).
  - now left.
  - reflexivity.
  - reflexivity.
  - reflexivity.
  - reflexivity.
  - reflexivity.
  - reflexivity.
  - reflexivity.
  - vm_compute. discriminate.
  - exists w'. split; [exact Hrun|]. split; [|split].
    + rewrite Hfs. apply lookup_insert_eq.
    + now rewrite Hentries.
    + apply Hagain. vm_compute. discriminate.
Defined.

(** ** C5: an unknown placeholder *)



(** ** C6: the template in use *)

(** C6, counterexample.  The show's [desired_format] is set, to the empty
    string.  The renamed file is [One Piece - S01E05.mkv], the default
    template, where substituting the show's own format gives [.mkv]. *)
Lemma empty_format_uses_default :
  desired_format (Fixture.with_format "") = Some ""
  /\ (handle_rename Fixture.episode5 Fixture.downloaded
        (Fixture.arrived (Fixture.with_format ""))).2
     = Ok (Fixture.test_dir ++ ["One Piece - S01E05.mkv"])%list
  /\ Py.re_sub (formatting_re (Fixture.with_format "") Fixture.episode5) ""
     +:+ Path.suffix Fixture.downloaded = ".mkv".
Proof. vm_compute. repeat split. Qed.

(** The amended C6 on a format that uses season and episode. *)
Lemma handle_rename_names_the_file_witness :
  (handle_rename Fixture.episode5 Fixture.downloaded
     (Fixture.arrived (Fixture.with_format "{s} {e} {sxe}"))).2
  = Ok (Fixture.test_dir ++ ["1 5 1x05.mkv"])%list.
Proof.
  destruct (handle_rename_names_the_file
              Fixture.episode5 Fixture.downloaded
              (Fixture.with_format "{s} {e} {sxe}") "video"
              (Fixture.arrived (Fixture.with_format "{s} {e} {sxe}"))
              eq_refl eq_refl ltac:(discriminate)
              "{s} {e} {sxe}" "1 5 1x05.mkv" eq_refl eq_refl eq_refl
              ltac:(vm_compute; discriminate))
    as [Hrun _].
  now rewrite Hrun.
Defined.

(** ** C8: a source with a fault *)



(** ** C7, C9, C10 on concrete inputs *)

(** C7 with no show in the table. *)
Lemma check_item_for_match_sound_witness :
  check_item_for_match "One Piece" 5
    (set_entries [] {| shows := []; entries := []; torrents := ∅; fs := ∅;
                       rss_parsers := []; current_parser := None; stdout := [];
                       scored := [] |})
  = ({| shows := []; entries := []; torrents := ∅; fs := ∅;
        rss_parsers := []; current_parser := None; stdout := [];
        scored := [] |}, Ok None).
Proof.
  apply (proj2 (check_item_for_match_sound "One Piece" 5 _)). reflexivity.
Defined.

(** C9 on an entry the client has forgotten. *)
Lemma unknown_handle_is_a_fault_witness :
  check_show_entry Fixture.lost Fixture.forgotten
  = (Fixture.forgotten,
     Raise (EntryNotInDeluge "Show Entry with ID 1 Episode 6 missing from Deluge."))
  /\ exists e, (check_show_entries Fixture.forgotten).2 = Raise e.
Proof.
  apply (unknown_handle_is_a_fault Fixture.lost Fixture.forgotten).
  - right. now left.
  - reflexivity.
  - reflexivity.
Defined.

(** C10 on ids that are not in the store. *)
Lemma get_by_id_not_found_witness :
  get_show_by_id 7 (Fixture.arrived Fixture.one_piece)
  = (Fixture.arrived Fixture.one_piece, Ok {| status := 200; body := "{}" |})
  /\ get_show_entry_by_entry_id 1 9 (Fixture.arrived Fixture.one_piece)
     = (Fixture.arrived Fixture.one_piece, Ok {| status := 200; body := "{}" |}).
Proof.
  destruct (get_by_id_not_found 7 9 (Fixture.arrived Fixture.one_piece)) as [Hshow _].
  destruct (get_by_id_not_found 1 9 (Fixture.arrived Fixture.one_piece)) as [_ Hentry].
  split.
  - apply Hshow. intros s [<-|[]]. discriminate.
  - apply Hentry. intros e [<-|[]] [_ H]. discriminate.
Defined.

Example found_show_is_dumped :
  (get_show_by_id 1 (Fixture.arrived Fixture.one_piece)).2
  = Ok {| status := 200;
          body := Json.dumps
                    [("id", Json.Int 1); ("search_title", Json.Str "One Piece");
                     ("desired_format", Json.Null); ("desired_folder", Json.Null);
                     ("season", Json.Int 1); ("episode_offset", Json.Int 0)] |}.
Proof. reflexivity. Qed.

(** * The further properties on the household set-up *)

(** X1 on a format without placeholders. *)
Lemma template_without_brace_is_verbatim_witness :
  Py.re_sub (formatting_re Fixture.one_piece Fixture.episode5) "Latest episode"
  = "Latest episode".
Proof.
  apply (template_without_brace_is_verbatim
           Fixture.one_piece Fixture.episode5 "Latest episode").
  reflexivity.
Defined.

(** X2 on a placeholder between brackets. *)
Lemma substitution_splits_at_a_placeholder_witness :
  Py.re_sub (formatting_re Fixture.one_piece Fixture.episode5)
    ("[" +:+ String "{" ("e00" +:+ String "}" "]"))
  = Py.re_sub (formatting_re Fixture.one_piece Fixture.episode5) "[" +:+
    formatting_re Fixture.one_piece Fixture.episode5 "e00" +:+
    Py.re_sub (formatting_re Fixture.one_piece Fixture.episode5) "]".
Proof.
  apply (substitution_splits_at_a_placeholder
           Fixture.one_piece Fixture.episode5 "[" "e00" "]").
  - reflexivity.
  - discriminate.
Defined.


(** X5 on a negative interval between a space and a line feed. *)
Lemma Poller_init_reads_decimal_witness :
  Poller_init (String " " (String "-" (String "5" (String "010" ""))))
  = PollerWith (-5).
Proof.
  apply (Poller_init_reads_decimal (-5) " " (String "010" "")).
  - apply Nat.leb_le. reflexivity.
  - reflexivity.
  - reflexivity.
Defined.

(** X6 on an interval with a unit. *)
Lemma Poller_init_rejects_foreign_text_witness :
  Poller_init "15m" = InvalidPollerInterval "'15m' is an invalid polling interval.".
Proof.
  apply (Poller_init_rejects_foreign_text "15m" "m").
  - reflexivity.
  - simpl. auto.
  - reflexivity.
Defined.

(** X10 on a table whose only entry is completed. *)
Lemma watcher_idles_without_downloading_witness :
  downloader_start 3
    (set_entries
       [{| e_id := 1; show_id := 1; episode := 5; torrent_hash := "h5";
           current_state := "completed" |}]
       (Fixture.arrived Fixture.one_piece))
  = (set_entries
       [{| e_id := 1; show_id := 1; episode := 5; torrent_hash := "h5";
           current_state := "completed" |}]
       (Fixture.arrived Fixture.one_piece),
     Ok tt).
Proof.
  apply (watcher_idles_without_downloading 3).
  intros e [<-|[]]. discriminate.
Defined.

(** X11 on a machine without the fixed directory. *)
Lemma missing_directory_is_a_fault_witness :
  check_show_entry Fixture.episode5
    (set_fs ∅ (Fixture.arrived Fixture.one_piece))
  = (set_fs ∅ (Fixture.arrived Fixture.one_piece),
     Raise (SavePathDoesNotExist
              "'C:/Users/Tyler/Documents/GitHub/Tsundoku/test/' could not be read")).
Proof.
  apply (missing_directory_is_a_fault Fixture.episode5
           {| info_save_path := "/downloads"; info_name := "op5.mkv" |}).
  - reflexivity.
  - vm_compute. discriminate.
Defined.

(** X12 on the table with a forgotten entry after an unfinished one. *)
Lemma lost_handle_stops_the_watcher_witness :
  check_show_entries Fixture.forgotten
  = (Fixture.forgotten,
     Raise (EntryNotInDeluge (missing_from_deluge Fixture.lost)))
  /\ downloader_start 4 Fixture.forgotten
     = (Fixture.forgotten,
        Raise (EntryNotInDeluge (missing_from_deluge Fixture.lost))).
Proof.
  apply (lost_handle_stops_the_watcher [Fixture.episode5] [] Fixture.lost 3
           Fixture.forgotten Fixture.forgotten).
  - reflexivity.
  - vm_compute. reflexivity.
  - reflexivity.
Defined.

(** X13 on the forgotten entry. *)
Lemma faulty_check_changes_nothing_witness :
  (check_show_entry Fixture.lost Fixture.forgotten).1 = Fixture.forgotten.
Proof.
  apply (faulty_check_changes_nothing Fixture.lost
           (EntryNotInDeluge (missing_from_deluge Fixture.lost)) Fixture.forgotten).
  reflexivity.
Defined.

(** X14 on an entry of show 9, which has no row. *)
Lemma entry_of_a_missing_show_faults_witness :
  check_show_entry
    {| e_id := 3; show_id := 9; episode := 5; torrent_hash := "h5";
       current_state := "downloading" |}
    (Fixture.arrived Fixture.one_piece)
  = (Fixture.arrived Fixture.one_piece, Raise TypeError).
Proof.
  apply (entry_of_a_missing_show_faults
           {| e_id := 3; show_id := 9; episode := 5; torrent_hash := "h5";
              current_state := "downloading" |}
           {| info_save_path := "/downloads"; info_name := "op5.mkv" |} "video").
  - reflexivity.
  - reflexivity.
  - reflexivity.
  - intros s [<-|[]]. discriminate.
Defined.

(** X15 when an older file already has the new name. *)
Lemma rename_replaces_a_file_of_that_name_witness :
  fs (check_show_entry Fixture.episode5
        (set_fs (<[(Fixture.test_dir ++ ["One Piece - S01E05.mkv"])%list := File "older"]>
                   (fs (Fixture.arrived Fixture.one_piece)))
           (Fixture.arrived Fixture.one_piece))).1
    !! (Fixture.test_dir ++ ["One Piece - S01E05.mkv"])%list
  = Some (File "video").
Proof.
  destruct (rename_replaces_a_file_of_that_name
              Fixture.episode5
              {| info_save_path := "/downloads"; info_name := "op5.mkv" |}
              Fixture.one_piece "video" "older"
              (Fixture.test_dir ++ ["One Piece - S01E05.mkv"])%list
              (set_fs (<[(Fixture.test_dir ++ ["One Piece - S01E05.mkv"])%list
                         := File "older"]>
                         (fs (Fixture.arrived Fixture.one_piece)))
                 (Fixture.arrived Fixture.one_piece)))
    as (_ & Hnew & _).
  - reflexivity.
  - reflexivity.
  - reflexivity.
  - reflexivity.
  - reflexivity.
  - vm_compute. discriminate.
  - reflexivity.
  - exact Hnew.
Defined.

(** X16 on a form without magnet and on an episode that is a word. *)
Lemma refused_request_changes_nothing_witness :
  (post_show_entries 1 [("episode", "5")] (Fixture.fresh [])).1 = Fixture.fresh []
  /\ (post_show_entries 1 [("episode", "five"); ("magnet", "magnet:?xt=op5")]
        (Fixture.fresh [])).1 = Fixture.fresh [].
Proof.
  split.
  - destruct (refused_request_changes_nothing 1 [("episode", "5")] "5" (Fixture.fresh []))
      as [H _].
    rewrite H; [reflexivity|]. vm_compute. discriminate.
  - destruct (refused_request_changes_nothing 1
                [("episode", "five"); ("magnet", "magnet:?xt=op5")] "five"
                (Fixture.fresh []))
      as [_ H].
    rewrite H; [reflexivity | vm_compute; reflexivity | reflexivity | reflexivity
               | apply Nat.leb_le; reflexivity | reflexivity].
Defined.

(** X17 on a request for the show of the table, with blanks around the
    episode. *)
Lemma accepted_request_adds_a_row_witness :
  exists row,
    entries (post_show_entries 1 [("magnet", "magnet:?xt=op7"); ("episode", " 7 ")]
               (Fixture.fresh [])).1
    = [row]
    /\ show_id row = 1 /\ episode row = 7.
Proof.
  destruct (accepted_request_adds_a_row 1
              [("magnet", "magnet:?xt=op7"); ("episode", " 7 ")] " 7 " 7
              (Fixture.fresh []))
    as (magnet & row & _ & _ & Hentries & Hshow & Hepisode & _).
  - exists Fixture.one_piece. split; [now left | reflexivity].
  - vm_compute. reflexivity.
  - reflexivity.
  - reflexivity.
  - reflexivity.
  - exists row. rewrite Hentries. auto.
Defined.

(** X18 on a source that ignores everything, and an item without title. *)
Lemma ignored_item_is_dropped_witness :
  check_item ∅
    (set_current_parser
       (Some {| url := "B"; ignore_logic := Some (fun _ => false);
                get_file_name := None; get_show_name := fun _ => "One Piece";
                get_episode_number := fun _ => 5; get_link_location := None |})
       (Fixture.fresh []))
  = (set_current_parser
       (Some {| url := "B"; ignore_logic := Some (fun _ => false);
                get_file_name := None; get_show_name := fun _ => "One Piece";
                get_episode_number := fun _ => 5; get_link_location := None |})
       (Fixture.fresh []),
     Ok tt).
Proof.
  apply (ignored_item_is_dropped ∅
           {| url := "B"; ignore_logic := Some (fun _ => false);
              get_file_name := None; get_show_name := fun _ => "One Piece";
              get_episode_number := fun _ => 5; get_link_location := None |}
           (fun _ => false)).
  - reflexivity.
  - reflexivity.
  - reflexivity.
Defined.

(** X19 on a feed whose first item has no title. *)
Lemma item_without_title_stops_the_feed_witness :
  check_feed [∅; Fixture.item5]
    (set_current_parser (Some (Fixture.source "B")) (Fixture.fresh []))
  = (set_current_parser (Some (Fixture.source "B")) (Fixture.fresh []),
     Raise (KeyError "title")).
Proof.
  apply (item_without_title_stops_the_feed ∅ [Fixture.item5] (Fixture.source "B")).
  - reflexivity.
  - exact I.
  - reflexivity.
  - reflexivity.
Defined.

(** X20 on a table that lists the matched title twice. *)
Lemma match_is_first_best_witness :
  exists t1 t2,
    ["Naruto"; "One Piece"; "One Piece"] = (t1 ++ "One Piece" :: t2)%list
    /\ (forall x, In x t1 -> (score "One Piece" x < score "One Piece" "One Piece")%Z)
    /\ (forall x, In x t2 -> (score "One Piece" x <= score "One Piece" "One Piece")%Z).
Proof.
  apply (match_is_first_best "One Piece" 5
           {| shows :=
                [{| s_id := 2; search_title := "Naruto"; desired_format := None;
                    desired_folder := None; season := 1; episode_offset := 0 |};
                 Fixture.one_piece;
                 {| s_id := 3; search_title := "One Piece"; desired_format := None;
                    desired_folder := None; season := 2; episode_offset := 0 |}];
              entries := []; torrents := ∅; fs := ∅; rss_parsers := [];
              current_parser := None; stdout := []; scored := [] |}
           "One Piece").
  vm_compute. reflexivity.
Defined.

(** X21 on the wanted show. *)
Lemma wanted_title_is_matched_witness :
  exists title,
    (check_item_for_match "One Piece" 5 (Fixture.arrived Fixture.one_piece)).2
    = Ok (Some title).
Proof.
  apply (wanted_title_is_matched "One Piece" "One Piece" 5
           (Fixture.arrived Fixture.one_piece)).
  - now left.
  - vm_compute. discriminate.
Defined.

(** X23 on a world where the file has arrived and the feed lists the
    episode. *)
Lemma watcher_and_poller_cycles_commute_witness :
  (check_show_entries ;; poll_cycle)
    (set_fs (fs (Fixture.arrived Fixture.one_piece))
       (set_torrents (torrents (Fixture.arrived Fixture.one_piece))
          (set_entries [Fixture.episode5] (Fixture.fresh [Fixture.source "B"]))))
  = (poll_cycle ;; check_show_entries)
      (set_fs (fs (Fixture.arrived Fixture.one_piece))
         (set_torrents (torrents (Fixture.arrived Fixture.one_piece))
            (set_entries [Fixture.episode5] (Fixture.fresh [Fixture.source "B"])))).
Proof.
  apply (watcher_and_poller_cycles_commute
           (set_fs (fs (Fixture.arrived Fixture.one_piece))
              (set_torrents (torrents (Fixture.arrived Fixture.one_piece))
                 (set_entries [Fixture.episode5] (Fixture.fresh [Fixture.source "B"]))))
           (check_show_entries
              (set_fs (fs (Fixture.arrived Fixture.one_piece))
                 (set_torrents (torrents (Fixture.arrived Fixture.one_piece))
                    (set_entries [Fixture.episode5]
                       (Fixture.fresh [Fixture.source "B"]))))).1
           (poll_cycle
              (set_fs (fs (Fixture.arrived Fixture.one_piece))
                 (set_torrents (torrents (Fixture.arrived Fixture.one_piece))
                    (set_entries [Fixture.episode5]
                       (Fixture.fresh [Fixture.source "B"]))))).1).
  - vm_compute. reflexivity.
  - vm_compute. reflexivity.
Defined.
